(** * photo-webify: the image pipeline of [app.py]

    A shallow embedding of the helpers of [app.py] (decode, colour
    normalisation, resize, watermark, encode, batch export) and the
    properties the specification states about them.

    Pillow, zipfile and datetime are external libraries: their operations
    are fields of the record [Pillow] (section "The imaging library"), so
    every theorem holds for every behaviour of the library unless it names
    a law of the library as a hypothesis.  The code of [app.py] itself is
    embedded line by line in a small state-and-exception monad [Py] over a
    store of image objects. *)

From Stdlib Require Import ZArith Ascii String List Floats.SpecFloat.
From stdpp Require Import gmap strings list fin_maps relations.

Open Scope string_scope.
Open Scope Z_scope.

(** ** Python runtime: exceptions and outcomes *)

(** The exception classes the modelled code can meet.  All of them are
    subclasses of [Exception]; only [TypeError] is caught by name. *)
Inductive exn : Type :=
  | TypeError | ValueError | OSError | KeyError | IndexError
  | ZeroDivisionError | OverflowError | RuntimeError | BadZipFile
  | PyCMSError.

Global Instance exn_eq_dec : EqDecision exn.
Proof. solve_decision. Defined.

Inductive outcome (A : Type) : Type :=
  | Ret (a : A)
  | Raise (e : exn).
Arguments Ret {A} a.
Arguments Raise {A} e.

Definition is_TypeError (e : exn) : bool :=
  match e with TypeError => true | _ => false end.

(** Sequencing of steps that may raise. *)
Global Instance outcome_ret : MRet outcome := @Ret.
Global Instance outcome_bind : MBind outcome :=
  fun A B k o => match o with Ret a => k a | Raise e => Raise e end.

(** ** Python floats: IEEE binary64, as [spec_float] *)

Module PyFloat.
Definition prec : Z := 53.
Definition emax : Z := 1024.
Abbreviation float := spec_float.

Definition is_finite (f : float) : bool :=
  match f with S754_zero _ | S754_finite _ _ _ => true | _ => false end.

(** [float(z)]: correctly rounded, [OverflowError] when out of range. *)
Definition of_int (z : Z) : outcome float :=
  let f := binary_normalize prec emax z 0 false in
  if is_finite f then Ret f else Raise OverflowError.

Definition is_zero (f : float) : bool :=
  match f with S754_zero _ => true | _ => false end.

(** [x / y] on floats. *)
Definition truediv (x y : float) : outcome float :=
  if is_zero y then Raise ZeroDivisionError else Ret (SFdiv prec emax x y).

Definition mul (x y : float) : float := SFmul prec emax x y.

Definition leb (x y : float) : bool := SFleb x y.
Definition ltb (x y : float) : bool := SFltb x y.

(** The magnitude [m * 2^e] rounded to an integer, half to even. *)
Definition round_half_even_mag (m : positive) (e : Z) : Z :=
  match e with
  | Z0 => Z.pos m
  | Zpos _ => Z.shiftl (Z.pos m) e
  | Zneg p =>
      let d := Z.shiftl 1 (Z.pos p) in
      let q := Z.pos m / d in
      let r := Z.pos m mod d in
      match 2 * r ?= d with
      | Lt => q
      | Gt => q + 1
      | Eq => if Z.even q then q else q + 1
      end
  end.

(** The magnitude [m * 2^e] truncated towards zero. *)
Definition trunc_mag (m : positive) (e : Z) : Z :=
  match e with
  | Z0 => Z.pos m
  | Zpos _ => Z.shiftl (Z.pos m) e
  | Zneg p => Z.shiftr (Z.pos m) (Z.pos p)
  end.

Definition to_int_with (mag : positive -> Z -> Z) (f : float) : outcome Z :=
  match f with
  | S754_zero _ => Ret 0
  | S754_finite s m e => Ret (if s then - mag m e else mag m e)
  | S754_infinity _ => Raise OverflowError
  | S754_nan => Raise ValueError
  end.

(** [round(f)] with one argument: nearest integer, ties to even. *)
Definition round : float -> outcome Z := to_int_with round_half_even_mag.
(** [int(f)]: truncation towards zero. *)
Definition int : float -> outcome Z := to_int_with trunc_mag.

(** The constants of the source. *)
Definition f0 : float := S754_zero false.
Definition f100 : float := Eval vm_compute in binary_normalize prec emax 100 0 false.
End PyFloat.
Import PyFloat.

(** A Python number: the parameters annotated [float] receive the [int]
    values of the sliders when the script runs. *)
Inductive number : Type :=
  | Int (z : Z)
  | Float (f : float).

Module PyNum.
Definition to_float (x : number) : outcome float :=
  match x with Int z => PyFloat.of_int z | Float f => Ret f end.

(** [x <= y] and [x < y].  Between two ints the comparison is exact;
    an int against a float is compared through its float value, exact
    for the constants 0 and 100 of the source. *)
Definition leb (x y : number) : bool :=
  match x, y with
  | Int a, Int b => a <=? b
  | _, _ =>
      match to_float x, to_float y with
      | Ret a, Ret b => PyFloat.leb a b
      | _, _ => false
      end
  end.
Definition ltb (x y : number) : bool :=
  match x, y with
  | Int a, Int b => a <? b
  | _, _ =>
      match to_float x, to_float y with
      | Ret a, Ret b => PyFloat.ltb a b
      | _, _ => false
      end
  end.
End PyNum.

(** ** Python strings (byte strings; [lower]/[upper] act on ASCII letters) *)

Module PyStr.
Definition lower_ascii (c : ascii) : ascii :=
  let n := nat_of_ascii c in
  if ((65 <=? n) && (n <=? 90))%nat then ascii_of_nat (n + 32) else c.
Definition upper_ascii (c : ascii) : ascii :=
  let n := nat_of_ascii c in
  if ((97 <=? n) && (n <=? 122))%nat then ascii_of_nat (n - 32) else c.

Fixpoint map (f : ascii -> ascii) (s : string) : string :=
  match s with
  | EmptyString => EmptyString
  | String c r => String (f c) (map f r)
  end.
Definition lower : string -> string := map lower_ascii.
Definition upper : string -> string := map upper_ascii.

Fixpoint rev_acc (s acc : string) : string :=
  match s with
  | EmptyString => acc
  | String c r => rev_acc r (String c acc)
  end.
Definition rev (s : string) : string := rev_acc s EmptyString.

(** [s.endswith(suffix)] *)
Definition endswith (s suffix : string) : bool :=
  String.prefix (rev suffix) (rev s).
(** [s.endswith((a, b, ...))] *)
Definition endswith_any (s : string) (suffixes : list string) : bool :=
  existsb (endswith s) suffixes.

(** The character of code 92. *)
Definition backslash : ascii := ascii_of_nat 92.

(** [s.replace(a, b)] for one-character [a] and [b]. *)
Definition replace_char (a b : ascii) : string -> string :=
  map (fun c => if Ascii.eqb c a then b else c).

(** [s.split(sep)] for a one-character separator. *)
Fixpoint split (sep : ascii) (s : string) : list string :=
  match s with
  | EmptyString => [EmptyString]
  | String c r =>
      if Ascii.eqb c sep then EmptyString :: split sep r
      else match split sep r with
           | h :: t => String c h :: t
           | [] => [String c EmptyString]
           end
  end.

(** [c in s] *)
Definition contains (c : ascii) (s : string) : bool :=
  existsb (Ascii.eqb c) (list_ascii_of_string s).

(** [s.rfind(c)]: the highest index of [c], [-1] when absent. *)
Fixpoint rfind_from (c : ascii) (s : string) (i : Z) (found : Z) : Z :=
  match s with
  | EmptyString => found
  | String d r => rfind_from c r (i + 1) (if Ascii.eqb d c then i else found)
  end.
Definition rfind (c : ascii) (s : string) : Z := rfind_from c s 0 (-1).

(** [s[:k]], with Python's reading of a negative [k]. *)
Definition slice_to (s : string) (k : Z) : string :=
  let n := Z.of_nat (String.length s) in
  let k' := if k <? 0 then Z.max 0 (n + k) else k in
  String.substring 0 (Z.to_nat (Z.min k' n)) s.
End PyStr.

(** ** Images, the object store and the monad of Python code *)

Definition bytes : Type := list Byte.byte.

(** A PIL image object: [mode], [size], the [info] dictionary (its byte
    valued entries: ["icc_profile"], ["exif"]) and the pixel buffer. *)
Record Image : Type := mkImage {
  im_mode : string;
  im_size : Z * Z;
  im_info : gmap string bytes;
  im_data : bytes
}.

Definition width (im : Image) : Z := fst (im_size im).
Definition height (im : Image) : Z := snd (im_size im).

(** References to image objects, and the store they live in. *)
Definition ref : Type := positive.
Abbreviation store := (gmap ref Image).

(** A Python computation: from a store to an outcome and a store; [None]
    when it reads a reference that was never allocated (no Python program
    does). *)
Definition Py (A : Type) : Type := store -> option (outcome A * store).

Definition ret {A} (a : A) : Py A := fun s => Some (Ret a, s).
Definition raise {A} (e : exn) : Py A := fun s => Some (Raise e, s).
Definition bind {A B} (m : Py A) (k : A -> Py B) : Py B :=
  fun s =>
    match m s with
    | Some (Ret a, s') => k a s'
    | Some (Raise e, s') => Some (Raise e, s')
    | None => None
    end.

Global Instance Py_ret : MRet Py := @ret.
Global Instance Py_bind : MBind Py := fun A B k m => bind m k.

(** [try: body  except Exception: handler] *)
Definition try_except {A} (body : Py A) (handler : Py A) : Py A :=
  fun s =>
    match body s with
    | Some (Raise _, s') => handler s'
    | r => r
    end.

(** [try: body  except TypeError: handler] *)
Definition try_except_TypeError {A} (body : Py A) (handler : Py A) : Py A :=
  fun s =>
    match body s with
    | Some (Raise e, s') => if is_TypeError e then handler s' else Some (Raise e, s')
    | r => r
    end.

(** The value of a library call that may raise. *)
Definition lift {A} (o : outcome A) : Py A := fun s => Some (o, s).

(** A new object. *)
Definition new (im : Image) : Py ref :=
  fun s => let l := fresh (dom s) in Some (Ret l, <[l := im]> s).
(** Reading an object. *)
Definition load (l : ref) : Py Image :=
  fun s => match s !! l with Some im => Some (Ret im, s) | None => None end.
(** Updating an object in place. *)
Definition update (l : ref) (im : Image) : Py unit :=
  fun s => Some (Ret tt, <[l := im]> s).

Fixpoint new_all (ims : list Image) : Py (list ref) :=
  match ims with
  | [] => ret []
  | im :: rest => l ← new im; ls ← new_all rest; ret (l :: ls)
  end.

(** [returns m s Q]: from the store [s] the computation [m] returns a
    value, and the value and the store it leaves satisfy [Q]. *)
Definition returns {A} (m : Py A) (s : store) (Q : A -> store -> Prop) : Prop :=
  exists a s', m s = Some (Ret a, s') /\ Q a s'.

(** ** The imaging library *)

Inductive Resampling : Type := NEAREST | BILINEAR | BICUBIC | LANCZOS.

Inductive Profile : Type :=
  | ProfileOfBytes (data : bytes)
  | BuiltinProfile (name : string).

(** Keyword arguments of [Image.save]. *)
Inductive pyval : Type :=
  | VInt (z : Z)
  | VBool (b : bool)
  | VBytes (b : bytes).

Record ZipInfo : Type := mkZipInfo {
  zi_is_dir : bool;
  zi_filename : string
}.

Inductive Compression : Type := ZIP_STORED | ZIP_DEFLATED.

(** What a [ZipFile] opened for writing holds when it is closed. *)
Record ZipArchive : Type := mkZipArchive {
  za_compression : Compression;
  za_entries : list (string * bytes)
}.

(** The operations of Pillow and zipfile that [app.py] calls.  Decoding,
    colour management, resampling to a requested size, compositing at an
    offset and encoding may raise; plain mode conversion and the band
    operations are total (the "safe plain conversion" of the
    specification).  A method that works in place returns the new state of
    its receiver. *)
Record Pillow : Type := mkPillow {
  (* Image.open(fp) *)
  pil_open : bytes -> outcome Image;
  (* ImageOps.exif_transpose(im) *)
  pil_exif_transpose : Image -> outcome Image;
  (* im.convert(mode) *)
  pil_convert : Image -> string -> Image;
  (* im.resize(size, resample) *)
  pil_resize : Image -> Z * Z -> Resampling -> outcome Image;
  (* im.split() *)
  pil_split : Image -> list Image;
  (* ImageEnhance.Brightness(im).enhance(factor) *)
  pil_brightness_enhance : Image -> float -> Image;
  (* im.putalpha(alpha), in place *)
  pil_putalpha : Image -> Image -> Image;
  (* im.alpha_composite(overlay, dest=xy), in place *)
  pil_alpha_composite : Image -> Image -> Z * Z -> outcome Image;
  (* im.save(buf, format=..., **params): the bytes written, or the
     exception, and the receiver afterwards *)
  pil_save : Image -> string -> gmap string pyval -> outcome bytes * Image;
  (* ImageCms.ImageCmsProfile(io.BytesIO(data)) *)
  cms_ImageCmsProfile : bytes -> outcome Profile;
  (* ImageCms.createProfile(name) *)
  cms_createProfile : string -> outcome Profile;
  (* ImageCms.profileToProfile(im, src, dst, outputMode=mode) *)
  cms_profileToProfile : Image -> Profile -> Profile -> string -> outcome Image;
  (* zipfile.ZipFile(io.BytesIO(data)).infolist() *)
  zip_infolist : bytes -> outcome (list ZipInfo);
  (* zf.open(info), and what f.read() then gives *)
  zip_open : bytes -> ZipInfo -> outcome (outcome bytes);
  (* the bytes of a written archive *)
  zip_getvalue : ZipArchive -> bytes
}.

(** ** [app.py]: helpers *)

Section App.
Variable lib : Pillow.

(** *** Methods on image objects *)

Definition Image_convert (l : ref) (mode : string) : Py ref :=
  im ← load l; new (pil_convert lib im mode).

Definition Image_copy (l : ref) : Py ref :=
  im ← load l; new im.

Definition Image_resize (l : ref) (size : Z * Z) (resample : Resampling) : Py ref :=
  im ← load l;
  r ← lift (pil_resize lib im size resample);
  new r.

Definition Image_split (l : ref) : Py (list ref) :=
  im ← load l; new_all (pil_split lib im).

Definition Brightness_enhance (l : ref) (factor : float) : Py ref :=
  im ← load l; new (pil_brightness_enhance lib im factor).

Definition Image_putalpha (l alpha : ref) : Py unit :=
  im ← load l; a ← load alpha; update l (pil_putalpha lib im a).

Definition Image_alpha_composite (l overlay : ref) (dest : Z * Z) : Py unit :=
  im ← load l;
  ov ← load overlay;
  r ← lift (pil_alpha_composite lib im ov dest);
  update l r.

(** [im.save(buf, format=fmt, **params)]: the contents of [buf]
    afterwards.  A save that raises has written nothing. *)
Definition Image_save (l : ref) (buf : bytes) (fmt : string)
    (params : gmap string pyval) : Py bytes :=
  im ← load l;
  let '(r, im') := pil_save lib im fmt params in
  _ ← update l im';
  written ← lift r;
  ret (buf ++ written)%list.

Definition ImageCms_profileToProfile (l : ref) (src dst : Profile)
    (outputMode : string) : Py ref :=
  im ← load l;
  r ← lift (cms_profileToProfile lib im src dst outputMode);
  new r.

(** [Image.open(...)] followed by [ImageOps.exif_transpose(im)]. *)
Definition Image_open (data : bytes) : Py ref :=
  im ← lift (pil_open lib data); new im.
Definition ImageOps_exif_transpose (l : ref) : Py ref :=
  im ← load l;
  r ← lift (pil_exif_transpose lib im);
  new r.

(** *** [read_uploaded_images] *)

Record UploadedFile : Type := mkUpload {
  uf_name : option string;   (* the attribute [name], when there is one *)
  uf_data : bytes
}.

Definition image_extensions : list string :=
  [".jpg"; ".jpeg"; ".png"; ".webp"; ".tif"; ".tiff"].

(** The body of the loop over [zf.infolist()]. *)
Fixpoint read_zip_entries (data : bytes) (infos : list ZipInfo)
    (images : list (string * ref)) : Py (list (string * ref)) :=
  match infos with
  | [] => ret images
  | info :: rest =>
      if zi_is_dir info then read_zip_entries data rest images
      else
        let fname := zi_filename info in
        if negb (PyStr.endswith_any (PyStr.lower fname) image_extensions)
        then read_zip_entries data rest images
        else
          f ← lift (zip_open lib data info);
          images' ← try_except
            (raw ← lift f;
             im ← Image_open raw;
             im ← ImageOps_exif_transpose im;
             ret (images ++ [(fname, im)])%list)
            (ret images);
          read_zip_entries data rest images'
  end.

(** The body of the loop over [uploaded_files]. *)
Fixpoint read_uploads (uploaded_files : list UploadedFile)
    (images : list (string * ref)) : Py (list (string * ref)) :=
  match uploaded_files with
  | [] => ret images
  | uf :: rest =>
      let name := default "upload" (uf_name uf) in
      images' ←
        (if PyStr.endswith (PyStr.lower name) ".zip" then
           let data := uf_data uf in
           infos ← lift (zip_infolist lib data);
           read_zip_entries data infos images
         else
           try_except
             (im ← Image_open (uf_data uf);
              im ← ImageOps_exif_transpose im;
              ret (images ++ [(name, im)])%list)
             (ret images));
      read_uploads rest images'
  end.

Definition read_uploaded_images (uploaded_files : list UploadedFile)
    : Py (list (string * ref)) :=
  let images := [] in
  match uploaded_files with
  | [] => ret images
  | _ => read_uploads uploaded_files images
  end.

(** *** [ensure_rgb_and_srgb] *)

Definition ensure_rgb_and_srgb (img : ref) (convert_to_srgb : bool) : Py ref :=
  if convert_to_srgb then
    try_except
      (im ← load img;
       match im_info im !! "icc_profile" with
       | Some icc =>
           src_profile ← lift (cms_ImageCmsProfile lib icc);
           dst_profile ← lift (cms_createProfile lib "sRGB");
           ImageCms_profileToProfile img src_profile dst_profile "RGB"
       | None => Image_convert img "RGB"
       end)
      (Image_convert img "RGB")
  else
    im ← load img;
    if negb (bool_decide (im_mode im ∈ ["RGB"; "RGBA"]))
    then Image_convert img "RGB"
    else ret img.

(** *** [resize_to_long_edge] *)

(** [int * float] *)
Definition int_mul_float (z : Z) (f : float) : outcome float :=
  match PyFloat.of_int z with
  | Ret zf => Ret (PyFloat.mul zf f)
  | Raise e => Raise e
  end.

(** [int / float] *)
Definition int_div_float (z : Z) (f : float) : outcome float :=
  match PyFloat.of_int z with
  | Ret zf => PyFloat.truediv zf f
  | Raise e => Raise e
  end.

(** Lines 69-71: [scale], [new_w], [new_h]; [round] already gives an
    [int], on which [int(...)] is the identity. *)
Definition scaled_size (w h long_side target_long : Z) : outcome (Z * Z) :=
  long_f ← PyFloat.of_int long_side;
  scale ← int_div_float target_long long_f;
  ws ← int_mul_float w scale;
  new_w ← PyFloat.round ws;
  hs ← int_mul_float h scale;
  new_h ← PyFloat.round hs;
  Ret (new_w, new_h).

Definition resize_to_long_edge (img : ref) (target_long : Z) : Py ref :=
  im ← load img;
  let '(w, h) := im_size im in
  let long_side := Z.max w h in
  if (target_long <=? 0) || (long_side <=? target_long) then ret img
  else
    size ← lift (scaled_size w h long_side target_long);
    Image_resize img size LANCZOS.

(** *** [apply_watermark] *)

(** [int / int] (true division).  The quotient is taken on the float
    values of the operands, which is Python's result whenever both are
    below 2^53 in magnitude, as image dimensions are. *)
Definition int_truediv (a b : Z) : outcome float :=
  if b =? 0 then Raise ZeroDivisionError
  else
    match PyFloat.of_int a, PyFloat.of_int b with
    | Ret fa, Ret fb => Ret (SFdiv prec emax fa fb)
    | Raise e, _ => Raise e
    | _, Raise e => Raise e
    end.

(** [x / 100.0] for a number [x]. *)
Definition num_div_float (x : number) (f : float) : outcome float :=
  match PyNum.to_float x with
  | Ret fx => PyFloat.truediv fx f
  | Raise e => Raise e
  end.

(** [t[-1]] *)
Definition item_last {A} (t : list A) : outcome A :=
  match last t with
  | Some x => Ret x
  | None => Raise IndexError
  end.

(** "Scale watermark based on base width": lines 88-90.  The size asked
    of [wm.resize], from [base.width], [wm.width], [wm.height] and
    [scale_pct]. *)
Definition watermark_size (base_width wm_width wm_height : Z) (scale_pct : number)
    : outcome (Z * Z) :=
  frac ← num_div_float scale_pct f100;
  tw ← int_mul_float base_width frac;
  tw ← PyFloat.int tw;
  let target_w := Z.max 1 tw in
  scale ← int_truediv target_w wm_width;
  hs ← int_mul_float wm_height scale;
  hs ← PyFloat.int hs;
  Ret (target_w, Z.max 1 hs).

(** [base] is the RGBA base, [wm] the RGBA watermark; the result is the
    resized watermark.  The attributes [base.width], [wm.width] and
    [wm.height] are read first: reading them has no effect and cannot
    fail. *)
Definition scale_watermark (base wm : ref) (scale_pct : number) : Py ref :=
  b ← load base;
  w ← load wm;
  size ← lift (watermark_size (width b) (width w) (height w) scale_pct);
  Image_resize wm size LANCZOS.

(** "Apply opacity": lines 93-96, on the resized watermark, in place. *)
Definition apply_opacity (wm : ref) (opacity_pct : number) : Py unit :=
  if PyNum.leb (Int 0) opacity_pct && PyNum.ltb opacity_pct (Int 100) then
    bands ← Image_split wm;
    alpha ← lift (item_last bands);
    factor ← lift (num_div_float opacity_pct f100);
    alpha ← Brightness_enhance alpha factor;
    Image_putalpha wm alpha
  else ret tt.

(** "Compute position": lines 99-106. *)
Definition positions (base_width base_height wm_width wm_height margin_px : Z)
    : gmap string (Z * Z) :=
  list_to_map
    [ ("top-left", (margin_px, margin_px));
      ("top-right", (base_width - wm_width - margin_px, margin_px));
      ("bottom-left", (margin_px, base_height - wm_height - margin_px));
      ("bottom-right", (base_width - wm_width - margin_px,
                        base_height - wm_height - margin_px));
      ("center", ((base_width - wm_width) / 2, (base_height - wm_height) / 2)) ].

(** [d[k]] and [d.get(k, dflt)] *)
Definition dict_item {V} (d : gmap string V) (k : string) : outcome V :=
  match d !! k with Some v => Ret v | None => Raise KeyError end.
Definition dict_get {V} (d : gmap string V) (k : string) (dflt : V) : V :=
  default dflt (d !! k).

Definition compute_position (base_width base_height wm_width wm_height margin_px : Z)
    (position : string) : outcome (Z * Z) :=
  let positions := positions base_width base_height wm_width wm_height margin_px in
  match dict_item positions "bottom-right" with
  | Ret dflt => Ret (dict_get positions position dflt)
  | Raise e => Raise e
  end.

Definition apply_watermark (base : ref) (watermark : option ref)
    (position : string) (scale_pct opacity_pct : number) (margin_px : Z) : Py ref :=
  match watermark with
  | None => ret base
  | Some watermark =>
      base ← Image_convert base "RGBA";
      wm ← Image_convert watermark "RGBA";
      wm ← scale_watermark base wm scale_pct;
      _ ← apply_opacity wm opacity_pct;
      b ← load base;
      w ← load wm;
      xy ← lift (compute_position (width b) (height b) (width w) (height w)
                   margin_px position);
      out ← Image_copy base;
      _ ← Image_alpha_composite out wm xy;
      Image_convert out "RGB"
  end.

(** *** [save_image_bytes] *)

(** The keyword arguments of the three [work.save] calls with options,
    and [exif_bytes]. *)
Definition jpeg_params (quality : Z) (optimize progressive : bool)
    (exif_bytes : bytes) : gmap string pyval :=
  list_to_map [ ("quality", VInt quality); ("optimize", VBool optimize);
                ("progressive", VBool progressive);
                ("exif", VBytes exif_bytes) ].
Definition webp_params (quality : Z) (exif_bytes : bytes) : gmap string pyval :=
  list_to_map [ ("quality", VInt quality); ("method", VInt 6);
                ("exif", VBytes exif_bytes) ].
Definition webp_retry_params (quality : Z) : gmap string pyval :=
  list_to_map [ ("quality", VInt quality) ].
Definition exif_bytes_of (im : Image) (keep_metadata : bool) : bytes :=
  if keep_metadata then dict_get (im_info im) "exif" [] else [].

Definition save_image_bytes (img : ref) (fmt : string) (quality : Z)
    (progressive optimize keep_metadata : bool) : Py bytes :=
  let fmt := PyStr.upper fmt in
  im ← load img;
  let exif_bytes := exif_bytes_of im keep_metadata in
  work ← Image_copy img;
  let buf : bytes := [] in
  if bool_decide (fmt = "JPEG") then
    work ← Image_convert work "RGB";
    Image_save work buf "JPEG" (jpeg_params quality optimize progressive exif_bytes)
  else if bool_decide (fmt = "WEBP") then
    try_except_TypeError
      (Image_save work buf "WEBP" (webp_params quality exif_bytes))
      (Image_save work buf "WEBP" (webp_retry_params quality))
  else
    Image_save work buf "PNG" ∅.

(** *** [process_one] and [filename_with_suffix] *)

Definition process_one (image : ref) (target_long : Z) (out_fmt : string)
    (quality : Z) (progressive optimize convert_to_srgb keep_metadata : bool)
    (wm_img : option ref) (wm_position : string)
    (wm_scale_pct wm_opacity_pct : number) (wm_margin_px : Z) : Py ref :=
  img ← ensure_rgb_and_srgb image convert_to_srgb;
  img ← resize_to_long_edge img target_long;
  match wm_img with
  | Some _ =>
      apply_watermark img wm_img wm_position wm_scale_pct wm_opacity_pct wm_margin_px
  | None => ret img
  end.

Definition filename_with_suffix (name suffix ext : string) : string :=
  let base :=
    List.last (PyStr.split "/" (PyStr.replace_char PyStr.backslash "/" name))
      EmptyString in
  let base :=
    if PyStr.contains "." base then PyStr.slice_to base (PyStr.rfind "." base)
    else base in
  base ++ suffix ++ "." ++ PyStr.lower ext.

(** ** [app.py]: "Process all and export" *)

(** The values of the sidebar widgets. *)
Record Settings : Type := mkSettings {
  target_long : Z;
  out_fmt : string;
  quality : Z;
  progressive : bool;
  optimize : bool;
  convert_to_srgb : bool;
  keep_metadata : bool;
  wm_position : string;
  wm_scale_pct : Z;
  wm_opacity_pct : Z;
  wm_margin_px : Z;
  suffix : string
}.

(** [datetime.now()] and [strftime("%Y%m%d_%H%M%S")] (years of four
    digits). *)
Record datetime : Type := mkDatetime {
  year : Z; month : Z; day : Z; hour : Z; minute : Z; second : Z
}.

Definition digit (n : Z) : ascii := ascii_of_nat (48 + Z.to_nat (n mod 10)).
Definition pad2 (n : Z) : string :=
  String (digit (n / 10)) (String (digit n) EmptyString).
Definition pad4 (n : Z) : string :=
  String (digit (n / 1000)) (String (digit (n / 100)) (pad2 n)).
Definition strftime_Ymd_HMS (t : datetime) : string :=
  pad4 (year t) ++ pad2 (month t) ++ pad2 (day t) ++ "_"
  ++ pad2 (hour t) ++ pad2 (minute t) ++ pad2 (second t).

(** What the page shows after the button is pressed. *)
Inductive Widget : Type :=
  | st_warning (body : string)
  | st_download_button (label : string) (data : bytes)
      (file_name : string) (mime : string).

(** The loop of lines 286-292. *)
Fixpoint process_all (cfg : Settings) (wm_img : option ref)
    (images : list (string * ref)) (results : list (string * bytes))
    : Py (list (string * bytes)) :=
  match images with
  | [] => ret results
  | (name, img) :: rest =>
      out_img ← process_one img (target_long cfg) (out_fmt cfg) (quality cfg)
                  (progressive cfg) (optimize cfg) (convert_to_srgb cfg)
                  (keep_metadata cfg) wm_img (wm_position cfg)
                  (Int (wm_scale_pct cfg)) (Int (wm_opacity_pct cfg))
                  (wm_margin_px cfg);
      out_bytes ← save_image_bytes out_img (out_fmt cfg) (quality cfg)
                    (progressive cfg) (optimize cfg) (keep_metadata cfg);
      let out_name := filename_with_suffix name (suffix cfg) (PyStr.lower (out_fmt cfg)) in
      process_all cfg wm_img rest (results ++ [(out_name, out_bytes)])%list
  end.

Definition image_mime (out_fmt : string) : string :=
  if bool_decide (PyStr.upper out_fmt = "JPEG") then "image/jpeg" else "image/webp".

(** [zf.writestr(fname, data)] for every result, in a ZipFile opened
    with [mode="w", compression=ZIP_DEFLATED]. *)
Fixpoint writestr_all (zf : ZipArchive) (results : list (string * bytes)) : ZipArchive :=
  match results with
  | [] => zf
  | (fname, data) :: rest =>
      writestr_all
        {| za_compression := za_compression zf;
           za_entries := (za_entries zf ++ [(fname, data)])%list |} rest
  end.

(** Lines 294-316. *)
Definition export (cfg : Settings) (now : datetime)
    (results : list (string * bytes)) : outcome Widget :=
  if (length results =? 1)%nat then
    match results with
    | (fname, data) :: _ =>
        Ret (st_download_button ("Download " ++ fname) data fname
               (image_mime (out_fmt cfg)))
    | [] => Raise IndexError
    end
  else
    let zf := writestr_all {| za_compression := ZIP_DEFLATED; za_entries := [] |} results in
    let zip_bytes := zip_getvalue lib zf in
    let ts := strftime_Ymd_HMS now in
    let zip_name := "exports_" ++ ts ++ ".zip" in
    Ret (st_download_button ("Download " ++ zip_name) zip_bytes zip_name
           "application/zip").

(** Lines 281-316: the handler of the button "Process images". *)
Definition process_images (cfg : Settings) (wm_img : option ref) (now : datetime)
    (images : list (string * ref)) : Py Widget :=
  match images with
  | [] => ret (st_warning "No images to process.")
  | _ =>
      results ← process_all cfg wm_img images [];
      lift (export cfg now results)
  end.

End App.



(** A caller that encodes the same image several times, as in the
    no-mutation property of the specification: each call with its own
    options, whatever it returns or raises. *)
Record EncodeArgs : Type := mkEncodeArgs {
  ea_fmt : string;
  ea_quality : Z;
  ea_progressive : bool;
  ea_optimize : bool;
  ea_keep_metadata : bool
}.

Fixpoint encode_many (lib : Pillow) (img : ref) (calls : list EncodeArgs)
    (s : store) : option store :=
  match calls with
  | [] => Some s
  | c :: rest =>
      match save_image_bytes lib img (ea_fmt c) (ea_quality c) (ea_progressive c)
              (ea_optimize c) (ea_keep_metadata c) s with
      | Some (_, s') => encode_many lib img rest s'
      | None => None
      end
  end.

(** ** [app.py]: the rest of the script *)

(** Lines 204-207: the default of "Target long edge, px" for a preset. *)
Definition default_long (preset : string) : Z :=
  if bool_decide (preset = "Web portfolio 2048 long edge") then 2048
  else if bool_decide (preset = "Instagram post 1080 long edge") then 1080
  else if bool_decide (preset = "Instagram portrait 1350 long edge") then 1350
  else if bool_decide (preset = "Instagram story 1920 long edge") then 1920
  else 2048.

(** Lines 233-238: the watermark upload, when there is one. *)
Definition load_watermark (lib : Pillow) (wm_file : option bytes) : Py (option ref) :=
  let wm_img := None in
  match wm_file with
  | Some f =>
      try_except (l ← Image_open lib f; ret (Some l)) (ret None)
  | None => ret wm_img
  end.

(** The entries of an archive that pass both [continue] tests of lines
    24-28. *)
Definition is_image_entry (info : ZipInfo) : bool :=
  negb (zi_is_dir info)
  && PyStr.endswith_any (PyStr.lower (zi_filename info)) image_extensions.

(** The name under which an upload is read, and whether it is read as an
    archive (lines 19-20). *)
Definition upload_name (uf : UploadedFile) : string :=
  default "upload" (uf_name uf).
Definition is_zip_upload (uf : UploadedFile) : bool :=
  PyStr.endswith (PyStr.lower (upload_name uf)) ".zip".

(** [settles m s Q]: from the store [s] the computation [m] comes to an
    end, returning or raising, and the outcome and the store it leaves
    satisfy [Q]. *)
Definition settles {A} (m : Py A) (s : store)
    (Q : outcome A -> store -> Prop) : Prop :=
  exists o s', m s = Some (o, s') /\ Q o s'.

(** Every object of [s] is still there, unchanged, in [s']. *)
Definition kept (s s' : store) : Prop :=
  forall k x, s !! k = Some x -> s' !! k = Some x.

(** The watermark, when there is one, is an object of the store. *)
Definition allocated (s : store) (l : option ref) : Prop :=
  match l with Some w => is_Some (s !! w) | None => True end.

(** ** Laws of the library *)

(** The alpha samples of an interleaved RGBA buffer. *)
Fixpoint alpha_channel (data : bytes) : bytes :=
  match data with
  | _ :: _ :: _ :: a :: rest => a :: alpha_channel rest
  | _ => []
  end.

Definition black (a : Image) : Prop := Forall (eq Byte.x00) (im_data a).

Definition transparent (ov : Image) : Prop :=
  im_mode ov = "RGBA" /\ Forall (eq Byte.x00) (alpha_channel (im_data ov)).

(** Documented behaviour of Pillow that some theorems rely on: the mode
    of a converted image. *)
Record ModeLaws (lib : Pillow) : Prop := mkModeLaws {
  (* convert(mode) returns an image of that mode *)
  convert_mode : forall im m, im_mode (pil_convert lib im m) = m;
  (* profileToProfile(outputMode=m) returns an image of mode m *)
  profileToProfile_mode : forall im src dst m r,
    cms_profileToProfile lib im src dst m = Ret r -> im_mode r = m
}.

(** ... and the alpha channel. *)
Record AlphaLaws (lib : Pillow) : Prop := mkAlphaLaws {
  (* RGB -> RGBA -> RGB gives the image back *)
  convert_rgb_roundtrip : forall im,
    im_mode im = "RGB" -> pil_convert lib (pil_convert lib im "RGBA") "RGB" = im;
  (* resize keeps the mode and gives the requested size *)
  resize_shape : forall im sz f r,
    pil_resize lib im sz f = Ret r -> im_mode r = im_mode im /\ im_size r = sz;
  (* an RGBA image splits into four L bands of its size *)
  split_rgba : forall im,
    im_mode im = "RGBA" ->
    exists r g b a, pil_split lib im = [r; g; b; a]
                    /\ im_mode a = "L" /\ im_size a = im_size im;
  (* Brightness keeps mode and size; factor 0.0 gives a black image *)
  enhance_shape : forall a f,
    im_mode (pil_brightness_enhance lib a f) = im_mode a
    /\ im_size (pil_brightness_enhance lib a f) = im_size a;
  enhance_zero : forall a f,
    PyFloat.is_zero f = true -> black (pil_brightness_enhance lib a f);
  (* putalpha with a black band makes an RGBA image fully transparent *)
  putalpha_black : forall w a,
    im_mode w = "RGBA" -> im_mode a = "L" -> im_size a = im_size w ->
    black a -> transparent (pil_putalpha lib w a);
  (* compositing a fully transparent overlay changes nothing *)
  composite_transparent : forall dst ov xy,
    im_mode dst = "RGBA" -> transparent ov ->
    pil_alpha_composite lib dst ov xy = Ret dst
}.

(** ** A small executable instance of the library

    Enough of Pillow to run the code on concrete inputs: images decode
    from a two-byte header (width, height) followed by the pixel bytes;
    [resize] rejects sizes below 1 with [ValueError], as Pillow does. *)

Module Toy.
Definition byteZ (b : Byte.byte) : Z := Z.of_N (Byte.to_N b).

Definition open (data : bytes) : outcome Image :=
  match data with
  | w :: h :: px =>
      if (0 <? byteZ w) && (0 <? byteZ h)
      then Ret (mkImage "RGB" (byteZ w, byteZ h) ∅ px)
      else Raise OSError
  | _ => Raise OSError
  end.

Definition convert (im : Image) (m : string) : Image :=
  mkImage m (im_size im) (im_info im) (im_data im).

Definition resize (im : Image) (sz : Z * Z) (f : Resampling) : outcome Image :=
  if (fst sz <? 1) || (snd sz <? 1) then Raise ValueError
  else Ret (mkImage (im_mode im) sz (im_info im) (im_data im)).

Definition band (im : Image) (data : bytes) : Image :=
  mkImage "L" (im_size im) (im_info im) data.

Definition split (im : Image) : list Image :=
  if bool_decide (im_mode im = "RGBA")
  then [band im (im_data im); band im (im_data im); band im (im_data im);
        band im (alpha_channel (im_data im))]
  else [band im (im_data im)].

Definition brightness_enhance (a : Image) (f : float) : Image :=
  mkImage (im_mode a) (im_size a) (im_info a)
    (if PyFloat.is_zero f then List.map (fun _ => Byte.x00) (im_data a)
     else im_data a).

Fixpoint putalpha_data (px al : bytes) : bytes :=
  match al with
  | [] => []
  | a :: al' =>
      match px with
      | r :: g :: b :: _ :: px' => r :: g :: b :: a :: putalpha_data px' al'
      | _ => Byte.x00 :: Byte.x00 :: Byte.x00 :: a :: putalpha_data [] al'
      end
  end.

Definition putalpha (w a : Image) : Image :=
  mkImage (im_mode w) (im_size w) (im_info w) (putalpha_data (im_data w) (im_data a)).

Definition alpha_composite (dst ov : Image) (xy : Z * Z) : outcome Image :=
  if forallb (Byte.eqb Byte.x00) (alpha_channel (im_data ov))
  then Ret dst
  else Ret (mkImage (im_mode dst) (im_size dst) (im_info dst) (im_data ov)).

(** An encoder that writes one byte for the format and the pixel data. *)
Definition tag (fmt : string) : Byte.byte :=
  if bool_decide (fmt = "JPEG") then Byte.x4a
  else if bool_decide (fmt = "WEBP") then Byte.x57 else Byte.x50.

Definition save (im : Image) (fmt : string) (params : gmap string pyval)
    : outcome bytes * Image :=
  (Ret (tag fmt :: im_data im), im).

Definition profileToProfile (im : Image) (src dst : Profile) (m : string)
    : outcome Image :=
  match src with
  | ProfileOfBytes [] => Raise PyCMSError
  | _ => Ret (convert im m)
  end.

Definition lib : Pillow := {|
  pil_open := open;
  pil_exif_transpose := fun im => Ret im;
  pil_convert := convert;
  pil_resize := resize;
  pil_split := split;
  pil_brightness_enhance := brightness_enhance;
  pil_putalpha := putalpha;
  pil_alpha_composite := alpha_composite;
  pil_save := save;
  cms_ImageCmsProfile := fun data => Ret (ProfileOfBytes data);
  cms_createProfile := fun name => Ret (BuiltinProfile name);
  cms_profileToProfile := profileToProfile;
  zip_infolist := fun _ => Raise BadZipFile;
  zip_open := fun _ _ => Raise BadZipFile;
  zip_getvalue := fun zf => List.concat (List.map snd (za_entries zf))
|}.

(** The same library with a WebP codec that cannot embed metadata: a
    save that is given an ["exif"] argument raises [e]. *)
Definition save_no_exif (e : exn) (im : Image) (fmt : string)
    (params : gmap string pyval) : outcome bytes * Image :=
  if bool_decide (fmt = "WEBP") && bool_decide (is_Some (params !! "exif"))
  then (Raise e, im)
  else save im fmt params.

Definition lib_no_exif (e : exn) : Pillow := {|
  pil_open := open;
  pil_exif_transpose := fun im => Ret im;
  pil_convert := convert;
  pil_resize := resize;
  pil_split := split;
  pil_brightness_enhance := brightness_enhance;
  pil_putalpha := putalpha;
  pil_alpha_composite := alpha_composite;
  pil_save := save_no_exif e;
  cms_ImageCmsProfile := fun data => Ret (ProfileOfBytes data);
  cms_createProfile := fun name => Ret (BuiltinProfile name);
  cms_profileToProfile := profileToProfile;
  zip_infolist := fun _ => Raise BadZipFile;
  zip_open := fun _ _ => Raise BadZipFile;
  zip_getvalue := fun zf => List.concat (List.map snd (za_entries zf))
|}.

(** Sample objects. *)
Definition rgb (w h : Z) : Image := mkImage "RGB" (w, h) ∅ [Byte.x01; Byte.x02; Byte.x03].
Definition cmyk : Image :=
  mkImage "CMYK" (4, 3) {[ "icc_profile" := [] ]} [Byte.x01].
Definition store1 (im : Image) : gmap ref Image := {[ 1%positive := im ]}.
Definition store2 (im wm : Image) : gmap ref Image :=
  <[ 2%positive := wm ]> {[ 1%positive := im ]}.
Definition store3 (a b c : Image) : gmap ref Image :=
  <[ 3%positive := c ]> (<[ 2%positive := b ]> {[ 1%positive := a ]}).

Definition cfg : Settings := {|
  target_long := 256; out_fmt := "JPEG"; quality := 85;
  progressive := true; optimize := true; convert_to_srgb := true;
  keep_metadata := false; wm_position := "bottom-right";
  wm_scale_pct := 12; wm_opacity_pct := 70; wm_margin_px := 24;
  suffix := "_web"
|}.
Definition now : datetime := {|
  year := 2025; month := 3; day := 9; hour := 14; minute := 5; second := 7
|}.

(** The library with an archive reader: every archive lists [infos], and
    [members] says what opening and reading a member gives. *)
Definition with_archive (infos : list ZipInfo)
    (members : ZipInfo -> outcome (outcome bytes)) : Pillow := {|
  pil_open := open;
  pil_exif_transpose := fun im => Ret im;
  pil_convert := convert;
  pil_resize := resize;
  pil_split := split;
  pil_brightness_enhance := brightness_enhance;
  pil_putalpha := putalpha;
  pil_alpha_composite := alpha_composite;
  pil_save := save;
  cms_ImageCmsProfile := fun data => Ret (ProfileOfBytes data);
  cms_createProfile := fun name => Ret (BuiltinProfile name);
  cms_profileToProfile := profileToProfile;
  zip_infolist := fun _ => Ret infos;
  zip_open := fun _ info => members info;
  zip_getvalue := fun zf => List.concat (List.map snd (za_entries zf))
|}.

(** Uploads: a decodable 2x3 image, an undecodable file, an archive. *)
Definition good_upload : UploadedFile :=
  mkUpload (Some "a.jpg") [Byte.x02; Byte.x03; Byte.x07].
Definition bad_upload : UploadedFile := mkUpload (Some "b.png") [].
Definition zip_upload : UploadedFile := mkUpload (Some "Shoot.ZIP") [Byte.x50; Byte.x4b].

(** An archive: one good image, a text file, a directory, and an image
    whose data cannot be read. *)
Definition sample_infos : list ZipInfo :=
  [ mkZipInfo false "a.jpg"; mkZipInfo false "notes.txt"; mkZipInfo true "b/";
    mkZipInfo false "b/c.PNG" ].
Definition sample_members (info : ZipInfo) : outcome (outcome bytes) :=
  if bool_decide (zi_filename info = "a.jpg")
  then Ret (Ret [Byte.x02; Byte.x03; Byte.x07])
  else Ret (Raise BadZipFile).
End Toy.

(** * Properties *)

(** ** Running the monad *)

Lemma bind_unfold {A B} (m : Py A) (k : A -> Py B) (s : store) :
  (m ≫= k) s =
  match m s with
  | Some (Ret a, s') => k a s'
  | Some (Raise e, s') => Some (Raise e, s')
  | None => None
  end.
Proof. reflexivity. Qed.

Lemma bind_ret {A B} (m : Py A) (k : A -> Py B) (s s' : store) (a : A) :
  m s = Some (Ret a, s') -> (m ≫= k) s = k a s'.
Proof. intros H. rewrite bind_unfold, H. reflexivity. Qed.

Lemma bind_raise {A B} (m : Py A) (k : A -> Py B) (s s' : store) (e : exn) :
  m s = Some (Raise e, s') -> (m ≫= k) s = Some (Raise e, s').
Proof. intros H. rewrite bind_unfold, H. reflexivity. Qed.

Lemma load_run (s : store) (l : ref) (im : Image) :
  s !! l = Some im -> load l s = Some (Ret im, s).
Proof. intros H. unfold load. rewrite H. reflexivity. Qed.

(** ** Resizer *)

(** C3. If the target is not positive, or the long side of the image is
    already within the target, [resize_to_long_edge] hands back the very
    same image object and leaves the store as it was: same dimensions, no
    upscaling, no library call. *)
Theorem resize_passthrough (lib : Pillow) (s : store) (img : ref) (im : Image)
    (target : Z) :
  s !! img = Some im ->
  target <= 0 \/ Z.max (width im) (height im) <= target ->
  resize_to_long_edge lib img target s = Some (Ret img, s).
Proof.
  intros Him Hcond. unfold resize_to_long_edge.
  rewrite (bind_ret _ _ _ _ _ (load_run _ _ _ Him)).
  unfold width, height in Hcond. destruct (im_size im) as [w h]. simpl in Hcond.
  replace ((target <=? 0) || (Z.max w h <=? target)) with true; [reflexivity|].
  symmetry. apply orb_true_iff.
  destruct Hcond; [left | right]; apply Z.leb_le; assumption.
Qed.

Lemma resize_passthrough_witness :
  resize_to_long_edge Toy.lib 1%positive 2048 (Toy.store1 (Toy.rgb 1200 600))
  = Some (Ret 1%positive, Toy.store1 (Toy.rgb 1200 600)).
Proof.
  apply (resize_passthrough Toy.lib _ _ (Toy.rgb 1200 600)).
  - reflexivity.
  - right. vm_compute. discriminate.
Defined.

Lemma lift_bind {A B} (o : outcome A) (k : A -> Py B) (s : store) :
  (lift o ≫= k) s =
  match o with Ret a => k a s | Raise e => Some (Raise e, s) end.
Proof. rewrite bind_unfold. unfold lift. destruct o; reflexivity. Qed.

Lemma new_run (s : store) (im : Image) :
  new im s = Some (Ret (fresh (dom s)), <[fresh (dom s) := im]> s).
Proof. reflexivity. Qed.

Lemma fresh_None (s : store) : s !! fresh (dom s) = None.
Proof. apply not_elem_of_dom, is_fresh. Qed.

Lemma Image_convert_run (lib : Pillow) (s : store) (l : ref) (im : Image) (m : string) :
  s !! l = Some im ->
  Image_convert lib l m s
  = Some (Ret (fresh (dom s)), <[fresh (dom s) := pil_convert lib im m]> s).
Proof.
  intros H. unfold Image_convert.
  rewrite (bind_ret _ _ _ _ _ (load_run _ _ _ H)). reflexivity.
Qed.

Lemma Image_copy_run (s : store) (l : ref) (im : Image) :
  s !! l = Some im ->
  Image_copy l s = Some (Ret (fresh (dom s)), <[fresh (dom s) := im]> s).
Proof.
  intros H. unfold Image_copy.
  rewrite (bind_ret _ _ _ _ _ (load_run _ _ _ H)). reflexivity.
Qed.

Lemma Image_save_run (lib : Pillow) (s : store) (l : ref) (im : Image)
    (buf : bytes) (fmt : string) (params : gmap string pyval) :
  s !! l = Some im ->
  Image_save lib l buf fmt params s
  = Some (match fst (pil_save lib im fmt params) with
          | Ret written => Ret (buf ++ written)%list
          | Raise e => Raise e
          end,
          <[l := snd (pil_save lib im fmt params)]> s).
Proof.
  intros H. unfold Image_save.
  rewrite (bind_ret _ _ _ _ _ (load_run _ _ _ H)).
  destruct (pil_save lib im fmt params) as [r im']. simpl.
  rewrite bind_unfold. unfold update. rewrite lift_bind.
  destruct r; reflexivity.
Qed.

(** ** Encoder *)

Lemma subseteq_None (s0 s : store) (l : ref) :
  s0 ⊆ s -> s !! l = None -> s0 !! l = None.
Proof.
  intros H Hl. destruct (s0 !! l) as [x|] eqn:E; [|reflexivity].
  rewrite (lookup_weaken _ _ _ _ E H) in Hl. discriminate.
Qed.

(** One call of the encoder returns or raises (it is never stuck on an
    allocated image) and every object of the caller's store is left as it
    was: only the private copies are written. *)
Lemma save_image_bytes_frame (lib : Pillow) (s : store) (img : ref) (im : Image)
    (fmt : string) (q : Z) (p o k : bool) :
  s !! img = Some im ->
  exists r s', save_image_bytes lib img fmt q p o k s = Some (r, s') /\ s ⊆ s'.
Proof.
  intros Him. unfold save_image_bytes.
  rewrite (bind_ret _ _ _ _ _ (load_run _ _ _ Him)).
  rewrite (bind_ret _ _ _ _ _ (Image_copy_run _ _ _ Him)).
  set (work := fresh (dom s)).
  set (s1 := <[work := im]> s).
  assert (Hs1 : s ⊆ s1) by (apply insert_subseteq, fresh_None).
  assert (Hw : s1 !! work = Some im) by apply lookup_insert_eq.
  assert (Hw0 : s !! work = None) by apply fresh_None.
  destruct (bool_decide (PyStr.upper fmt = "JPEG")); [|destruct (bool_decide (PyStr.upper fmt = "WEBP"))].
  - rewrite (bind_ret _ _ _ _ _ (Image_convert_run lib _ _ _ "RGB" Hw)).
    set (work2 := fresh (dom s1)).
    set (s2 := <[work2 := pil_convert lib im "RGB"]> s1).
    assert (Hw2 : s2 !! work2 = Some (pil_convert lib im "RGB")) by apply lookup_insert_eq.
    rewrite (Image_save_run lib _ _ _ _ _ _ Hw2).
    eexists _, _. split; [reflexivity|].
    apply insert_subseteq_r.
    + apply (subseteq_None s s1); [exact Hs1 | apply fresh_None].
    + etrans; [exact Hs1|]. apply insert_subseteq, fresh_None.
  - unfold try_except_TypeError.
    rewrite (Image_save_run lib _ _ _ _ _ _ Hw).
    set (first := pil_save lib im "WEBP" _).
    assert (Hs2 : s ⊆ <[work := snd first]> s1)
      by (apply insert_subseteq_r; [exact Hw0 | exact Hs1]).
    destruct (fst first) as [b|e].
    + eexists _, _. split; [reflexivity | exact Hs2].
    + destruct (is_TypeError e).
      * assert (Hw' : <[work := snd first]> s1 !! work = Some (snd first))
          by apply lookup_insert_eq.
        rewrite (Image_save_run lib _ _ _ _ _ _ Hw').
        eexists _, _. split; [reflexivity|].
        apply insert_subseteq_r; [exact Hw0 | exact Hs2].
      * eexists _, _. split; [reflexivity | exact Hs2].
  - rewrite (Image_save_run lib _ _ _ _ _ _ Hw).
    eexists _, _. split; [reflexivity|].
    apply insert_subseteq_r; [exact Hw0 | exact Hs1].
Qed.

(** C8. Whatever the format, quality, progressive, optimize and
    keep-metadata options, and however many times the encoder is called on
    an image, every call terminates (returning bytes or raising) and the
    caller's image object, with its pixel buffer, is afterwards exactly
    what it was before: the encoder only ever writes to its private copy.
    The same holds for every other object of the caller's store. *)
Theorem encode_never_mutates (lib : Pillow) (calls : list EncodeArgs)
    (s : store) (img : ref) (im : Image) :
  s !! img = Some im ->
  exists s', encode_many lib img calls s = Some s'
             /\ s' !! img = Some im
             /\ s ⊆ s'.
Proof.
  revert s. induction calls as [|c rest IH]; intros s Him.
  - exists s. split; [reflexivity|]. split; [exact Him | reflexivity].
  - simpl.
    destruct (save_image_bytes_frame lib s img im (ea_fmt c) (ea_quality c)
                (ea_progressive c) (ea_optimize c) (ea_keep_metadata c) Him)
      as (r & s1 & Hrun & Hsub).
    rewrite Hrun.
    destruct (IH s1 (lookup_weaken _ _ _ _ Him Hsub)) as (s' & Hmany & Himg & Hsub').
    exists s'. split; [exact Hmany|]. split; [exact Himg|].
    etrans; eassumption.
Qed.

Lemma encode_never_mutates_witness :
  exists s',
    encode_many Toy.lib 1%positive
      [ mkEncodeArgs "JPEG" 85 true true false;
        mkEncodeArgs "webp" 60 false true true;
        mkEncodeArgs "PNG" 85 true false false ]
      (Toy.store1 (Toy.rgb 4 3)) = Some s'
    /\ s' !! 1%positive = Some (Toy.rgb 4 3)
    /\ Toy.store1 (Toy.rgb 4 3) ⊆ s'.
Proof.
  apply (encode_never_mutates Toy.lib _ (Toy.store1 (Toy.rgb 4 3)) 1%positive).
  reflexivity.
Defined.

(** The WEBP branch, step by step. *)
Lemma save_image_bytes_webp (lib : Pillow) (s : store) (img : ref) (im : Image)
    (fmt : string) (q : Z) (p o k : bool) :
  s !! img = Some im ->
  PyStr.upper fmt = "WEBP" ->
  let work := fresh (dom s) in
  let first := pil_save lib im "WEBP" (webp_params q (exif_bytes_of im k)) in
  let retry := pil_save lib (snd first) "WEBP" (webp_retry_params q) in
  save_image_bytes lib img fmt q p o k s =
  match fst first with
  | Ret b => Some (Ret b, <[work := snd first]> (<[work := im]> s))
  | Raise e =>
      if is_TypeError e
      then Some (fst retry,
                 <[work := snd retry]> (<[work := snd first]> (<[work := im]> s)))
      else Some (Raise e, <[work := snd first]> (<[work := im]> s))
  end.
Proof.
  intros Him Hfmt work first retry. unfold save_image_bytes.
  rewrite (bind_ret _ _ _ _ _ (load_run _ _ _ Him)).
  rewrite (bind_ret _ _ _ _ _ (Image_copy_run _ _ _ Him)).
  rewrite Hfmt.
  rewrite (bool_decide_eq_false_2 ("WEBP" = "JPEG")) by discriminate.
  rewrite (bool_decide_eq_true_2 ("WEBP" = "WEBP")) by reflexivity.
  unfold try_except_TypeError.
  fold work.
  assert (Hw : <[work := im]> s !! work = Some im) by apply lookup_insert_eq.
  rewrite (Image_save_run lib _ _ _ _ _ _ Hw). fold first.
  destruct (fst first) as [b|e]; [reflexivity|].
  destruct (is_TypeError e); [|reflexivity].
  assert (Hw' : <[work := snd first]> (<[work := im]> s) !! work = Some (snd first))
    by apply lookup_insert_eq.
  rewrite (Image_save_run lib _ _ _ _ _ _ Hw'). fold retry.
  destruct (fst retry); reflexivity.
Qed.

(** C7, as the code has it.  When the WEBP save with metadata raises
    [TypeError], the encoder saves again without metadata and returns the
    bytes of that second save; an exception of any other class raised by
    the first save reaches the caller. *)
Theorem webp_retry_on_TypeError (lib : Pillow) (s : store) (img : ref) (im : Image)
    (fmt : string) (q : Z) (p o k : bool) :
  s !! img = Some im ->
  PyStr.upper fmt = "WEBP" ->
  let first := pil_save lib im "WEBP" (webp_params q (exif_bytes_of im k)) in
  let retry := pil_save lib (snd first) "WEBP" (webp_retry_params q) in
  (forall b, fst first = Raise TypeError -> fst retry = Ret b ->
             exists s', save_image_bytes lib img fmt q p o k s = Some (Ret b, s'))
  /\ (forall e, fst first = Raise e -> e <> TypeError ->
                exists s', save_image_bytes lib img fmt q p o k s = Some (Raise e, s')).
Proof.
  intros Him Hfmt first retry.
  pose proof (save_image_bytes_webp lib s img im fmt q p o k Him Hfmt) as Hrun.
  cbv zeta in Hrun. fold first in Hrun. fold retry in Hrun.
  split.
  - intros b Hfirst Hretry. rewrite Hfirst in Hrun. simpl in Hrun.
    rewrite Hretry in Hrun. eauto.
  - intros e Hfirst Hne. rewrite Hfirst in Hrun.
    replace (is_TypeError e) with false in Hrun by (destruct e; simpl; congruence).
    eauto.
Qed.

Lemma webp_retry_on_TypeError_witness :
  (exists s', save_image_bytes (Toy.lib_no_exif TypeError) 1%positive "webp" 85
                true true true (Toy.store1 (Toy.rgb 4 3))
              = Some (Ret [Byte.x57; Byte.x01; Byte.x02; Byte.x03], s'))
  /\ (exists s', save_image_bytes (Toy.lib_no_exif OSError) 1%positive "webp" 85
                   true true true (Toy.store1 (Toy.rgb 4 3))
                 = Some (Raise OSError, s')).
Proof.
  split.
  - apply (proj1 (webp_retry_on_TypeError (Toy.lib_no_exif TypeError)
                    (Toy.store1 (Toy.rgb 4 3)) 1%positive (Toy.rgb 4 3)
                    "webp" 85 true true true eq_refl eq_refl)); reflexivity.
  - apply (proj2 (webp_retry_on_TypeError (Toy.lib_no_exif OSError)
                    (Toy.store1 (Toy.rgb 4 3)) 1%positive (Toy.rgb 4 3)
                    "webp" 85 true true true eq_refl eq_refl)).
    + reflexivity.
    + discriminate.
Defined.

(** C7 as stated fails: a codec whose metadata embedding fails with an
    exception other than [TypeError] (here [OSError]), and which would
    encode the same image without metadata, makes the encoder raise. *)
Lemma webp_metadata_failure_propagates :
  ~ (forall (lib : Pillow) (s : store) (img : ref) (im : Image) (q : Z) (k : bool)
            (e : exn) (b : bytes),
       s !! img = Some im ->
       fst (pil_save lib im "WEBP" (webp_params q (exif_bytes_of im k))) = Raise e ->
       fst (pil_save lib im "WEBP" (webp_retry_params q)) = Ret b ->
       exists b' s', save_image_bytes lib img "WEBP" q true true k s = Some (Ret b', s')).
Proof.
  intros H.
  destruct (H (Toy.lib_no_exif OSError) (Toy.store1 (Toy.rgb 4 3)) 1%positive
              (Toy.rgb 4 3) 85 true OSError
              [Byte.x57; Byte.x01; Byte.x02; Byte.x03]
              eq_refl eq_refl eq_refl) as (b' & s' & Hrun).
  vm_compute in Hrun. discriminate.
Qed.

(** ** Resizer: the missing floor *)

(** C2, at an input where the code departs from it.  For a 1x600 image and
    a target long edge of 256 the scale is 256/600 and the new width is
    [round(1 * 0.4266...) = 0]: the code asks the library for a 0x256
    image.  No floor at 1px is applied. *)
Theorem resize_requests_zero_width (lib : Pillow) (s : store) (img : ref)
    (im : Image) :
  s !! img = Some im ->
  im_size im = (1, 600) ->
  scaled_size 1 600 600 256 = Ret (0, 256)
  /\ resize_to_long_edge lib img 256 s = Image_resize lib img (0, 256) LANCZOS s.
Proof.
  intros Him Hsize. split; [vm_compute; reflexivity|].
  unfold resize_to_long_edge.
  rewrite (bind_ret _ _ _ _ _ (load_run _ _ _ Him)).
  rewrite Hsize. cbv beta iota zeta.
  change ((256 <=? 0) || (Z.max 1 600 <=? 256)) with false. cbv iota.
  rewrite lift_bind.
  change (scaled_size 1 600 (Z.max 1 600) 256) with (@Ret (Z * Z) (0, 256)).
  reflexivity.
Qed.

Lemma resize_requests_zero_width_witness :
  resize_to_long_edge Toy.lib 1%positive 256 (Toy.store1 (Toy.rgb 1 600))
  = Some (Raise ValueError, Toy.store1 (Toy.rgb 1 600)).
Proof.
  rewrite (proj2 (resize_requests_zero_width Toy.lib (Toy.store1 (Toy.rgb 1 600))
                    1%positive (Toy.rgb 1 600) eq_refl eq_refl)).
  reflexivity.
Defined.

(** Away from such thin images the sizes are the expected ones. *)
Example scaled_size_examples :
  scaled_size 6000 4000 6000 2048 = Ret (2048, 1365)
  /\ scaled_size 1200 600 1200 256 = Ret (256, 128)
  /\ scaled_size 3 2000 2000 1080 = Ret (2, 1080).
Proof. repeat split; vm_compute; reflexivity. Qed.

(** ** Watermark placement *)


Lemma positions_lookup_bottom_right (bw bh ww wh m : Z) :
  positions bw bh ww wh m !! "bottom-right" = Some (bw - ww - m, bh - wh - m).
Proof.
  unfold positions. simpl.
  repeat (rewrite lookup_insert_ne by discriminate).
  apply lookup_insert_eq.
Qed.



(** ** Export: single file or archive *)

Lemma writestr_all_entries (zf : ZipArchive) (results : list (string * bytes)) :
  writestr_all zf results
  = {| za_compression := za_compression zf;
       za_entries := (za_entries zf ++ results)%list |}.
Proof.
  revert zf. induction results as [|[fname data] rest IH]; intros zf; simpl.
  - rewrite app_nil_r. destruct zf; reflexivity.
  - rewrite IH. simpl. rewrite <- app_assoc. reflexivity.
Qed.

(** The timestamp has the shape YYYYMMDD_HHMMSS: fifteen characters, an
    underscore in the ninth place, decimal digits elsewhere. *)
Lemma digit_is_decimal (n : Z) :
  (48 <= nat_of_ascii (digit n) <= 57)%nat.
Proof.
  unfold digit.
  assert (H : 0 <= n mod 10 < 10) by (apply Z.mod_pos_bound; lia).
  rewrite nat_ascii_embedding by lia. lia.
Qed.

Lemma strftime_shape (t : datetime) :
  exists y1 y2 y3 y4 m1 m2 d1 d2 h1 h2 i1 i2 s1 s2,
    list_ascii_of_string (strftime_Ymd_HMS t)
    = [y1; y2; y3; y4; m1; m2; d1; d2; "_"%char; h1; h2; i1; i2; s1; s2]
    /\ Forall (fun c => (48 <= nat_of_ascii c <= 57)%nat)
         [y1; y2; y3; y4; m1; m2; d1; d2; h1; h2; i1; i2; s1; s2].
Proof.
  do 14 eexists. split; [reflexivity|].
  repeat (apply Forall_cons; split; [apply digit_is_decimal|]).
  apply Forall_nil. exact I.
Qed.

Example strftime_example :
  strftime_Ymd_HMS Toy.now = "20250309_140507".
Proof. reflexivity. Qed.

Example filename_with_suffix_examples :
  filename_with_suffix "shoot/day1/IMG_0042.final.JPG" "_web" "jpeg"
  = "IMG_0042.final_web.jpeg"
  /\ filename_with_suffix ("C:" ++ String PyStr.backslash "scan.tiff") "_web" "webp"
     = "scan_web.webp"
  /\ filename_with_suffix "README" "_web" "jpeg" = "README_web.jpeg".
Proof. repeat split; reflexivity. Qed.

(** C9. A batch result of exactly one entry is delivered as that entry's
    own bytes under its own name; a batch result of more than one entry is
    delivered as the bytes of a ZIP archive written with deflate
    compression, holding one entry per result in the order of the results,
    under the name exports_YYYYMMDD_HHMMSS.zip. *)
Theorem export_single_or_archive (lib : Pillow) (cfg : Settings) (now : datetime)
    (results : list (string * bytes)) :
  (length results = 1%nat ->
   exists fname data,
     results = [(fname, data)]
     /\ export lib cfg now results
        = Ret (st_download_button ("Download " ++ fname) data fname
                 (image_mime (out_fmt cfg))))
  /\ ((1 < length results)%nat ->
      let zip_name := "exports_" ++ strftime_Ymd_HMS now ++ ".zip" in
      export lib cfg now results
      = Ret (st_download_button ("Download " ++ zip_name)
               (zip_getvalue lib {| za_compression := ZIP_DEFLATED;
                                    za_entries := results |})
               zip_name "application/zip")).
Proof.
  split.
  - intros Hlen. destruct results as [|[fname data] [|? ?]]; try discriminate.
    exists fname, data. split; reflexivity.
  - intros Hlen zip_name. unfold export.
    replace (length results =? 1)%nat with false
      by (symmetry; apply Nat.eqb_neq; lia).
    rewrite writestr_all_entries. reflexivity.
Qed.

Lemma export_single_or_archive_witness :
  (exists fname data,
     [("a_web.jpg", [Byte.x4a])] = [(fname, data)]
     /\ export Toy.lib Toy.cfg Toy.now [("a_web.jpg", [Byte.x4a])]
        = Ret (st_download_button ("Download " ++ fname) data fname "image/jpeg"))
  /\ export Toy.lib Toy.cfg Toy.now
       [("a_web.jpg", [Byte.x4a]); ("b_web.jpg", [Byte.x4b]); ("c_web.jpg", [Byte.x4c])]
     = Ret (st_download_button "Download exports_20250309_140507.zip"
              (zip_getvalue Toy.lib
                 {| za_compression := ZIP_DEFLATED;
                    za_entries := [("a_web.jpg", [Byte.x4a]); ("b_web.jpg", [Byte.x4b]);
                                   ("c_web.jpg", [Byte.x4c])] |})
              "exports_20250309_140507.zip" "application/zip").
Proof.
  split.
  - apply (proj1 (export_single_or_archive Toy.lib Toy.cfg Toy.now
                    [("a_web.jpg", [Byte.x4a])])).
    reflexivity.
  - apply (proj2 (export_single_or_archive Toy.lib Toy.cfg Toy.now
                    [("a_web.jpg", [Byte.x4a]); ("b_web.jpg", [Byte.x4b]);
                     ("c_web.jpg", [Byte.x4c])])).
    simpl. lia.
Defined.

(** ** Batch loop *)

Lemma process_all_app (lib : Pillow) (cfg : Settings) (wm : option ref)
    (pre post : list (string * ref)) (acc : list (string * bytes)) (s : store) :
  process_all lib cfg wm (pre ++ post) acc s
  = (process_all lib cfg wm pre acc ≫= process_all lib cfg wm post) s.
Proof.
  revert acc s. induction pre as [|[name img] pre IH]; intros acc s.
  - reflexivity.
  - simpl. rewrite !bind_unfold.
    destruct (process_one _ _ _ _ _ _ _ _ _ _ _ _ _ _ s) as [[[out|e] s1]|];
      [|reflexivity|reflexivity].
    rewrite !bind_unfold.
    destruct (save_image_bytes _ _ _ _ _ _ _ s1) as [[[b|e] s2]|];
      [|reflexivity|reflexivity].
    rewrite IH. reflexivity.
Qed.

(** When the loop completes, there is one result per image, in input
    order, after the results accumulated so far. *)
Lemma process_all_results (lib : Pillow) (cfg : Settings) (wm : option ref)
    (images : list (string * ref)) (acc results : list (string * bytes))
    (s s' : store) :
  process_all lib cfg wm images acc s = Some (Ret results, s') ->
  exists new_results,
    results = (acc ++ new_results)%list
    /\ List.map fst new_results
       = List.map (fun ni => filename_with_suffix (fst ni) (suffix cfg)
                               (PyStr.lower (out_fmt cfg))) images.
Proof.
  revert acc s. induction images as [|[name img] rest IH]; intros acc s Hrun.
  - simpl in Hrun. injection Hrun as <- _. exists []. rewrite app_nil_r. auto.
  - simpl in Hrun. rewrite bind_unfold in Hrun.
    destruct (process_one _ _ _ _ _ _ _ _ _ _ _ _ _ _ s) as [[[out|e] s1]|];
      try discriminate.
    rewrite bind_unfold in Hrun.
    destruct (save_image_bytes _ _ _ _ _ _ _ s1) as [[[b|e] s2]|];
      try discriminate.
    destruct (IH _ _ Hrun) as (more & -> & Hnames).
    eexists (_ :: more). rewrite <- app_assoc. split; [reflexivity|].
    simpl. rewrite Hnames. reflexivity.
Qed.

(** C1, where the code departs from it.  The batch loop has no guard
    around the processing of one image: if the images before it were
    processed and processing or encoding this one raises, the loop and the
    whole export raise that exception; no result is delivered for any
    image of the batch. *)
Theorem batch_aborts_on_failure (lib : Pillow) (cfg : Settings) (wm : option ref)
    (now : datetime) (pre post : list (string * ref)) (name : string) (img : ref)
    (earlier : list (string * bytes)) (s s1 s2 : store) (e : exn) :
  process_all lib cfg wm pre [] s = Some (Ret earlier, s1) ->
  process_all lib cfg wm [(name, img)] earlier s1 = Some (Raise e, s2) ->
  process_images lib cfg wm now (pre ++ (name, img) :: post) s
  = Some (Raise e, s2).
Proof.
  intros Hpre Hfail.
  assert (Hloop : process_all lib cfg wm (pre ++ (name, img) :: post) [] s
                  = Some (Raise e, s2)).
  { rewrite process_all_app, (bind_ret _ _ _ _ _ Hpre).
    change ((name, img) :: post) with ([(name, img)] ++ post)%list.
    rewrite process_all_app. apply bind_raise, Hfail. }
  unfold process_images.
  destruct (pre ++ (name, img) :: post)%list eqn:E.
  - destruct pre; discriminate.
  - apply bind_raise, Hloop.
Qed.

Lemma batch_aborts_on_failure_witness :
  exists s2,
    process_images Toy.lib Toy.cfg None Toy.now
      [("a.jpg", 1%positive); ("b.png", 2%positive); ("c.jpg", 3%positive)]
      (Toy.store3 (Toy.rgb 800 600) (Toy.rgb 1 600) (Toy.rgb 640 480))
    = Some (Raise ValueError, s2).
Proof.
  eexists.
  eapply (batch_aborts_on_failure Toy.lib Toy.cfg None Toy.now
            [("a.jpg", 1%positive)] [("c.jpg", 3%positive)] "b.png" 2%positive).
  - vm_compute. reflexivity.
  - vm_compute. reflexivity.
Defined.

(** The decode stage, by contrast, drops an upload that fails to decode
    and goes on with the others. *)
Lemma read_uploads_skips_undecodable (lib : Pillow) (uf : UploadedFile)
    (rest : list UploadedFile) (images : list (string * ref)) (s : store) (e : exn) :
  PyStr.endswith (PyStr.lower (default "upload" (uf_name uf))) ".zip" = false ->
  pil_open lib (uf_data uf) = Raise e ->
  read_uploads lib (uf :: rest) images s = read_uploads lib rest images s.
Proof.
  intros Hzip Hopen. simpl. rewrite Hzip.
  rewrite bind_unfold. unfold try_except.
  rewrite bind_unfold. unfold Image_open.
  rewrite lift_bind, Hopen. reflexivity.
Qed.

Lemma read_uploads_keeps_decodable (lib : Pillow) (uf : UploadedFile)
    (rest : list UploadedFile) (images : list (string * ref)) (s : store)
    (im im' : Image) :
  PyStr.endswith (PyStr.lower (default "upload" (uf_name uf))) ".zip" = false ->
  pil_open lib (uf_data uf) = Ret im ->
  pil_exif_transpose lib im = Ret im' ->
  exists l s',
    s' !! l = Some im'
    /\ read_uploads lib (uf :: rest) images s
       = read_uploads lib rest (images ++ [(default "upload" (uf_name uf), l)])%list s'.
Proof.
  intros Hzip Hopen Htr. simpl. rewrite Hzip.
  rewrite bind_unfold. unfold try_except.
  rewrite bind_unfold. unfold Image_open.
  rewrite lift_bind, Hopen, new_run.
  rewrite bind_unfold. unfold ImageOps_exif_transpose.
  rewrite (bind_ret _ _ _ _ _ (load_run _ _ im (lookup_insert_eq _ _ _))).
  rewrite lift_bind, Htr, new_run.
  eexists _, _. split; [|reflexivity]. apply lookup_insert_eq.
Qed.

(** ** Colour normaliser *)

Lemma ImageCms_profileToProfile_run (lib : Pillow) (s : store) (l : ref)
    (im : Image) (src dst : Profile) (m : string) :
  s !! l = Some im ->
  ImageCms_profileToProfile lib l src dst m s
  = match cms_profileToProfile lib im src dst m with
    | Ret r => Some (Ret (fresh (dom s)), <[fresh (dom s) := r]> s)
    | Raise e => Some (Raise e, s)
    end.
Proof.
  intros H. unfold ImageCms_profileToProfile.
  rewrite (bind_ret _ _ _ _ _ (load_run _ _ _ H)), lift_bind.
  destruct (cms_profileToProfile lib im src dst m); reflexivity.
Qed.



Lemma Toy_mode_laws : ModeLaws Toy.lib.
Proof.
  split.
  - reflexivity.
  - intros im src dst m r. simpl. unfold Toy.profileToProfile.
    destruct src as [[|? ?]|?]; intros H; try discriminate;
      injection H as <-; reflexivity.
Qed.


(** ** Rules for [returns] *)

Lemma returns_ret {A} (a : A) (s : store) (Q : A -> store -> Prop) :
  Q a s -> returns (ret a) s Q.
Proof. intros H. exists a, s. split; [reflexivity | exact H]. Qed.

Lemma returns_bind {A B} (m : Py A) (k : A -> Py B) (s : store)
    (Q : B -> store -> Prop) :
  returns m s (fun a s' => returns (k a) s' Q) -> returns (m ≫= k) s Q.
Proof.
  intros (a & s' & Hm & b & s'' & Hk & HQ).
  exists b, s''. split; [|exact HQ].
  rewrite (bind_ret _ _ _ _ _ Hm). exact Hk.
Qed.

Lemma returns_lift {A} (o : outcome A) (a : A) (s : store) (Q : A -> store -> Prop) :
  o = Ret a -> Q a s -> returns (lift o) s Q.
Proof. intros -> H. exists a, s. split; [reflexivity | exact H]. Qed.

Lemma returns_load (l : ref) (im : Image) (s : store) (Q : Image -> store -> Prop) :
  s !! l = Some im -> Q im s -> returns (load l) s Q.
Proof. intros Hl H. exists im, s. split; [apply load_run, Hl | exact H]. Qed.

Lemma returns_new (im : Image) (s : store) (Q : ref -> store -> Prop) :
  (forall l, s !! l = None -> Q l (<[l := im]> s)) -> returns (new im) s Q.
Proof.
  intros H. eexists _, _. split; [apply new_run|]. apply H, fresh_None.
Qed.

Lemma returns_update (l : ref) (im : Image) (s : store) (Q : unit -> store -> Prop) :
  Q tt (<[l := im]> s) -> returns (update l im) s Q.
Proof. intros H. exists tt, (<[l := im]> s). split; [reflexivity | exact H]. Qed.

Lemma returns_mono {A} (m : Py A) (s : store) (Q Q' : A -> store -> Prop) :
  returns m s Q -> (forall a s', Q a s' -> Q' a s') -> returns m s Q'.
Proof. intros (a & s' & Hm & HQ) H. exists a, s'. split; [exact Hm | apply H, HQ]. Qed.

(** [new_all] allocates one object per image, away from the objects
    already there. *)
Lemma returns_new_all (ims : list Image) (s : store)
    (Q : list ref -> store -> Prop) :
  (forall ls s',
     Forall2 (fun l im => s' !! l = Some im) ls ims ->
     Forall (fun l => s !! l = None) ls ->
     (forall k x, s !! k = Some x -> s' !! k = Some x) ->
     Q ls s') ->
  returns (new_all ims) s Q.
Proof.
  revert s Q. induction ims as [|im rest IH]; intros s Q H.
  - apply returns_ret. apply H; [constructor | constructor | auto].
  - simpl. apply returns_bind, returns_new. intros l Hl.
    apply returns_bind, IH. intros ls s' Hall Hfresh Hkeep.
    apply returns_ret, H.
    + constructor; [apply Hkeep, lookup_insert_eq | exact Hall].
    + constructor; [exact Hl|].
      eapply Forall_impl; [exact Hfresh|]. intros k Hk.
      apply lookup_insert_None in Hk. tauto.
    + intros k x Hk. apply Hkeep. rewrite lookup_insert_ne; [exact Hk|].
      intros <-. congruence.
Qed.

(** ** Watermark opacity *)



Lemma SFcompare_antisym (x y : float) (c : comparison) :
  SFcompare x y = Some c -> SFcompare y x = Some (CompOpp c).
Proof.
  destruct x as [sx|sx| |sx mx ex], y as [sy|sy| |sy my ey]; simpl;
    try discriminate;
    try (intros H; injection H as <-;
         repeat match goal with b : bool |- _ => destruct b end; reflexivity).
  intros H. injection H as <-.
  pose proof (Pos.compare_cont_antisym mx my Eq) as HP. simpl in HP.
  rewrite (Z.compare_antisym ex ey), <- HP.
  destruct sx, sy; simpl; try reflexivity;
    destruct (ex ?= ey); simpl; try reflexivity;
    destruct (Pos.compare_cont Eq mx my); reflexivity.
Qed.

(** A number below 0 fails the test [0 <= opacity_pct]; a number that is
    at least 100 fails the test [opacity_pct < 100]. *)
Lemma negative_not_in_range (pct : number) :
  PyNum.ltb pct (Int 0) = true -> PyNum.leb (Int 0) pct = false.
Proof.
  destruct pct as [z|f].
  - simpl. intros H. apply Z.ltb_lt in H. apply Z.leb_gt. exact H.
  - unfold PyNum.ltb, PyNum.leb, PyNum.to_float.
    change (PyFloat.of_int 0) with (Ret f0).
    unfold PyFloat.ltb, PyFloat.leb, SFltb, SFleb.
    destruct (SFcompare f f0) as [c|] eqn:E; [|intros; discriminate].
    rewrite (SFcompare_antisym _ _ _ E).
    destruct c; simpl; intros; congruence.
Qed.


Lemma outcome_bind_Ret {A B} (o : outcome A) (k : A -> outcome B) (b : B) :
  o ≫= k = Ret b -> exists a, o = Ret a /\ k a = Ret b.
Proof. destruct o as [a|e]; [eauto | discriminate]. Qed.

(** The watermark path floors both dimensions at 1px (the floor that
    [resize_to_long_edge] lacks). *)
Lemma watermark_size_floor (bw ww wh : Z) (scale_pct : number) (tw th : Z) :
  watermark_size bw ww wh scale_pct = Ret (tw, th) -> 1 <= tw /\ 1 <= th.
Proof.
  unfold watermark_size. intros H.
  repeat (apply outcome_bind_Ret in H; destruct H as (? & _ & H)).
  injection H as <- <-. lia.
Qed.

Lemma Image_split_returns (lib : Pillow) (s : store) (l : ref) (im : Image)
    (Q : list ref -> store -> Prop) :
  s !! l = Some im ->
  (forall ls s',
     Forall2 (fun l im => s' !! l = Some im) ls (pil_split lib im) ->
     Forall (fun l => s !! l = None) ls ->
     (forall k x, s !! k = Some x -> s' !! k = Some x) ->
     Q ls s') ->
  returns (Image_split lib l) s Q.
Proof.
  intros Hl H. unfold Image_split.
  apply returns_bind, (returns_load _ _ _ _ Hl), returns_new_all, H.
Qed.

(** Inside the range the alpha band of the watermark is replaced, in
    place, by [Brightness(alpha).enhance(opacity_pct / 100.0)]; every
    other object is left alone. *)
Lemma apply_opacity_adjusts (lib : Pillow) (s : store) (wm : ref) (w a : Image)
    (pct : number) (factor : float) :
  s !! wm = Some w ->
  item_last (pil_split lib w) = Ret a ->
  PyNum.leb (Int 0) pct = true ->
  PyNum.ltb pct (Int 100) = true ->
  num_div_float pct f100 = Ret factor ->
  returns (apply_opacity lib wm pct) s (fun _ s' =>
    s' !! wm = Some (pil_putalpha lib w (pil_brightness_enhance lib a factor))
    /\ forall k x, k <> wm -> s !! k = Some x -> s' !! k = Some x).
Proof.
  intros Hwm Hlast Hle Hlt Hfactor. unfold apply_opacity.
  rewrite Hle, Hlt. simpl andb. cbv iota.
  apply returns_bind, (Image_split_returns lib _ _ _ _ Hwm).
  intros ls s1 Hall Hfresh Hkeep.
  (* the last band *)
  unfold item_last in Hlast.
  destruct (last (pil_split lib w)) as [a'|] eqn:Ea; [|discriminate].
  injection Hlast as ->.
  pose proof (Forall2_last _ _ _ Hall) as Hl. rewrite Ea in Hl.
  inversion Hl as [la a'' Hla Ela Ea'|]; subst a''.
  apply returns_bind, (returns_lift _ la).
  { unfold item_last. rewrite <- Ela. reflexivity. }
  apply returns_bind, (returns_lift _ factor _ _ Hfactor).
  unfold Brightness_enhance.
  apply returns_bind, returns_bind, (returns_load _ _ _ _ Hla), returns_new.
  intros l5 Hl5.
  assert (Hne : wm <> l5) by (intros ->; rewrite (Hkeep _ _ Hwm) in Hl5; discriminate).
  unfold Image_putalpha.
  apply returns_bind, (returns_load _ w).
  { rewrite lookup_insert_ne by (apply not_eq_sym, Hne). apply Hkeep, Hwm. }
  apply returns_bind, (returns_load _ (pil_brightness_enhance lib a factor)).
  { apply lookup_insert_eq. }
  apply returns_update. split.
  - apply lookup_insert_eq.
  - intros k x Hk Hs. rewrite lookup_insert_ne by (apply not_eq_sym, Hk).
    rewrite lookup_insert_ne.
    + apply Hkeep, Hs.
    + intros <-. rewrite (Hkeep _ _ Hs) in Hl5. discriminate.
Qed.

(** Outside the range nothing is done. *)
Lemma apply_opacity_skips (lib : Pillow) (wm : ref) (pct : number) :
  PyNum.leb (Int 0) pct && PyNum.ltb pct (Int 100) = false ->
  apply_opacity lib wm pct = ret tt.
Proof. intros H. unfold apply_opacity. rewrite H. reflexivity. Qed.

(** ** Rules for the methods *)

Lemma returns_convert (lib : Pillow) (s : store) (l : ref) (im : Image)
    (m : string) (Q : ref -> store -> Prop) :
  s !! l = Some im ->
  (forall l', s !! l' = None -> Q l' (<[l' := pil_convert lib im m]> s)) ->
  returns (Image_convert lib l m) s Q.
Proof.
  intros Hl H. unfold Image_convert.
  apply returns_bind, (returns_load _ _ _ _ Hl), returns_new, H.
Qed.

Lemma returns_copy (s : store) (l : ref) (im : Image) (Q : ref -> store -> Prop) :
  s !! l = Some im ->
  (forall l', s !! l' = None -> Q l' (<[l' := im]> s)) ->
  returns (Image_copy l) s Q.
Proof.
  intros Hl H. unfold Image_copy.
  apply returns_bind, (returns_load _ _ _ _ Hl), returns_new, H.
Qed.



(** Bookkeeping of allocated references. *)
Ltac fresh_facts H :=
  repeat (let Hne := fresh "Hne" in apply lookup_insert_None in H as [H Hne]).
Ltac solve_ne :=
  first [assumption | apply not_eq_sym; assumption | congruence].
Ltac solve_lookup :=
  repeat first [apply lookup_insert_eq | rewrite lookup_insert_ne by solve_ne];
  try eassumption.




Lemma alpha_channel_putalpha_data (px al : bytes) :
  alpha_channel (Toy.putalpha_data px al) = al.
Proof.
  revert px. induction al as [|a al IH]; intros px; [reflexivity|].
  simpl. destruct px as [|r [|g [|b [|x px']]]]; simpl; rewrite IH; reflexivity.
Qed.

Lemma Toy_alpha_laws : AlphaLaws Toy.lib.
Proof.
  split; simpl.
  - intros [m sz inf d] Hm. simpl in Hm. subst m. reflexivity.
  - intros im sz f r. unfold Toy.resize.
    destruct ((sz.1 <? 1) || (sz.2 <? 1)); intros H; [discriminate|].
    injection H as <-. split; reflexivity.
  - intros im Hm. unfold Toy.split. rewrite bool_decide_eq_true_2 by exact Hm.
    do 4 eexists. split; [reflexivity|]. split; reflexivity.
  - intros a f. split; reflexivity.
  - intros a f Hz. unfold black, Toy.brightness_enhance. simpl. rewrite Hz.
    induction (im_data a); constructor; auto.
  - intros w a Hw _ _ Hblack. split; [exact Hw|].
    simpl. rewrite alpha_channel_putalpha_data. exact Hblack.
  - intros dst ov xy _ [_ Htr]. unfold Toy.alpha_composite.
    replace (forallb (Byte.eqb Byte.x00) (alpha_channel (im_data ov))) with true;
      [reflexivity|].
    symmetry. apply forallb_forall. intros x Hx.
    rewrite Forall_forall in Htr. rewrite <- (Htr x); [reflexivity|].
    apply list_elem_of_In, Hx.
Qed.


(** C10. For every negative [opacity_pct] the opacity step does nothing,
    exactly as for [opacity_pct = 100]: the watermark keeps its own alpha
    and [apply_watermark] is the same computation as with 100.  This is
    not what [opacity_pct = 0] does, where the alpha band is replaced by
    [Brightness(alpha).enhance(0.0)]. *)
Theorem negative_opacity_is_full_strength (lib : Pillow) (pct : number) :
  PyNum.ltb pct (Int 0) = true ->
  (forall (wm : ref) (s : store), apply_opacity lib wm pct s = Some (Ret tt, s))
  /\ (forall wm : ref, apply_opacity lib wm pct = apply_opacity lib wm (Int 100))
  /\ (forall (base : ref) (watermark : option ref) (position : string)
             (scale_pct : number) (margin : Z),
        apply_watermark lib base watermark position scale_pct pct margin
        = apply_watermark lib base watermark position scale_pct (Int 100) margin)
  /\ (forall (s : store) (wm : ref) (w a : Image),
        s !! wm = Some w ->
        item_last (pil_split lib w) = Ret a ->
        returns (apply_opacity lib wm (Int 0)) s (fun _ s' =>
          s' !! wm = Some (pil_putalpha lib w (pil_brightness_enhance lib a f0)))).
Proof.
  intros Hneg. pose proof (negative_not_in_range pct Hneg) as Hle.
  repeat apply conj.
  - intros wm s. rewrite apply_opacity_skips; [reflexivity|].
    rewrite Hle. reflexivity.
  - intros wm. rewrite apply_opacity_skips; [reflexivity|].
    rewrite Hle. reflexivity.
  - intros base watermark position scale_pct margin.
    unfold apply_watermark, apply_opacity. rewrite Hle. reflexivity.
  - intros s wm w a Hwm Hlast.
    eapply returns_mono.
    + apply (apply_opacity_adjusts lib s wm w a (Int 0) f0 Hwm Hlast);
        reflexivity.
    + intros _ s' [H _]. exact H.
Qed.

Lemma negative_opacity_is_full_strength_witness :
  apply_watermark Toy.lib 1%positive (Some 2%positive) "bottom-right"
    (Int 12) (Int (-5)) 24
  = apply_watermark Toy.lib 1%positive (Some 2%positive) "bottom-right"
      (Int 12) (Int 100) 24.
Proof.
  apply (negative_opacity_is_full_strength Toy.lib (Int (-5))).
  reflexivity.
Defined.

(** * More of the code *)

(** ** Output names *)

Lemma pystr_map_app (f : ascii -> ascii) (a b : string) :
  PyStr.map f (a ++ b) = PyStr.map f a ++ PyStr.map f b.
Proof. induction a as [|c a IH]; simpl; [reflexivity | rewrite IH; reflexivity]. Qed.

Lemma split_nonempty (sep : ascii) (s : string) : PyStr.split sep s <> [].
Proof.
  destruct s as [|c r]; simpl; [discriminate|].
  destruct (Ascii.eqb c sep); [discriminate|].
  destruct (PyStr.split sep r); discriminate.
Qed.

Lemma split_app_sep (sep : ascii) (a b : string) :
  PyStr.split sep (a ++ String sep b)
  = (PyStr.split sep a ++ PyStr.split sep b)%list.
Proof.
  induction a as [|c a IH]; simpl.
  - rewrite Ascii.eqb_refl. reflexivity.
  - destruct (Ascii.eqb c sep).
    + rewrite IH. reflexivity.
    + rewrite IH. pose proof (split_nonempty sep a) as Hne.
      destruct (PyStr.split sep a) as [|h t]; [contradiction | reflexivity].
Qed.

Lemma list_last_app {A} (l l' : list A) (d : A) :
  l' <> [] -> List.last (l ++ l') d = List.last l' d.
Proof.
  intros Hne. induction l as [|x l IH]; [reflexivity|].
  simpl. destruct (l ++ l')%list eqn:E; [|exact IH].
  apply app_eq_nil in E as [_ E]. contradiction.
Qed.

(** A string without the separator is its own single segment. *)
Lemma split_no_sep (sep : ascii) (s : string) :
  PyStr.contains sep s = false -> PyStr.split sep s = [s].
Proof.
  unfold PyStr.contains. induction s as [|c r IH]; simpl; [reflexivity|].
  intros H. apply orb_false_iff in H as [Hc Hr].
  rewrite Ascii.eqb_sym, Hc, (IH Hr). reflexivity.
Qed.

Lemma replace_char_absent (a b : ascii) (s : string) :
  PyStr.contains a s = false -> PyStr.replace_char a b s = s.
Proof.
  unfold PyStr.contains, PyStr.replace_char.
  induction s as [|c r IH]; simpl; [reflexivity|].
  intros H. apply orb_false_iff in H as [Hc Hr].
  rewrite Ascii.eqb_sym, Hc, (IH Hr). reflexivity.
Qed.

Lemma rfind_from_app (c : ascii) (a b : string) (i found : Z) :
  PyStr.rfind_from c (a ++ b) i found
  = PyStr.rfind_from c b (i + Z.of_nat (String.length a)) (PyStr.rfind_from c a i found).
Proof.
  revert i found. induction a as [|d a IH]; intros i found; simpl.
  - rewrite Z.add_0_r. reflexivity.
  - rewrite IH. f_equal. lia.
Qed.

Lemma rfind_from_absent (c : ascii) (s : string) (i found : Z) :
  PyStr.contains c s = false -> PyStr.rfind_from c s i found = found.
Proof.
  unfold PyStr.contains. revert i found.
  induction s as [|d r IH]; intros i found; simpl; [reflexivity|].
  intros H. apply orb_false_iff in H as [Hc Hr].
  rewrite Ascii.eqb_sym, Hc. apply IH, Hr.
Qed.

Lemma contains_app (c : ascii) (a b : string) :
  PyStr.contains c (a ++ b) = PyStr.contains c a || PyStr.contains c b.
Proof.
  unfold PyStr.contains. induction a as [|d a IH]; simpl; [reflexivity|].
  rewrite IH. apply orb_assoc.
Qed.

Lemma string_length_app (a b : string) :
  String.length (a ++ b) = (String.length a + String.length b)%nat.
Proof. induction a as [|c a IH]; simpl; [reflexivity | rewrite IH; reflexivity]. Qed.

Lemma substring_prefix (a b : string) :
  String.substring 0 (String.length a) (a ++ b) = a.
Proof.
  induction a as [|c a IH]; simpl.
  - destruct b; reflexivity.
  - rewrite IH. reflexivity.
Qed.

Lemma slice_to_prefix (a b : string) :
  PyStr.slice_to (a ++ b) (Z.of_nat (String.length a)) = a.
Proof.
  unfold PyStr.slice_to. rewrite string_length_app.
  replace (Z.of_nat (String.length a) <? 0) with false by (symmetry; apply Z.ltb_ge; lia).
  rewrite Z.min_l by lia. rewrite Nat2Z.id. apply substring_prefix.
Qed.


Lemma fws_stem_ext (stem e suffix ext : string) :
  PyStr.contains "/" stem = false ->
  PyStr.contains PyStr.backslash stem = false ->
  PyStr.contains "/" e = false ->
  PyStr.contains PyStr.backslash e = false ->
  PyStr.contains "." e = false ->
  filename_with_suffix (stem ++ String "." e) suffix ext
  = stem ++ suffix ++ "." ++ PyStr.lower ext.
Proof.
  intros Hs Hb Hes Heb Hed. unfold filename_with_suffix.
  assert (Hb' : PyStr.contains PyStr.backslash (stem ++ String "." e) = false).
  { rewrite contains_app, Hb. unfold PyStr.contains in *. simpl. exact Heb. }
  assert (Hs' : PyStr.contains "/" (stem ++ String "." e) = false).
  { rewrite contains_app, Hs. unfold PyStr.contains in *. simpl. exact Hes. }
  rewrite (replace_char_absent _ _ _ Hb'), (split_no_sep _ _ Hs'). simpl List.last.
  replace (PyStr.contains "." (stem ++ String "." e)) with true.
  2: { rewrite contains_app. unfold PyStr.contains. simpl. symmetry. apply orb_true_r. }
  unfold PyStr.rfind. rewrite rfind_from_app. simpl PyStr.rfind_from at 1.
  rewrite (rfind_from_absent _ e _ _ Hed). simpl Z.add.
  rewrite slice_to_prefix. reflexivity.
Qed.

Lemma base_ignores_directory (dir name : string) (sep : ascii) :
  sep = "/"%char \/ sep = PyStr.backslash ->
  List.last (PyStr.split "/" (PyStr.replace_char PyStr.backslash "/"
                                (dir ++ String sep name))) EmptyString
  = List.last (PyStr.split "/" (PyStr.replace_char PyStr.backslash "/" name))
      EmptyString.
Proof.
  intros Hsep. unfold PyStr.replace_char.
  rewrite pystr_map_app.
  change (PyStr.map ?f (String sep name)) with (String (f sep) (PyStr.map f name)).
  cbv beta.
  replace (if Ascii.eqb sep PyStr.backslash then "/"%char else sep) with "/"%char
    by (destruct Hsep as [-> | ->]; reflexivity).
  rewrite split_app_sep, list_last_app by apply split_nonempty.
  reflexivity.
Qed.

(** X1. Whatever directories precede it, with either separator, only the
    part of the name after the last separator counts. *)
Theorem filename_ignores_directory (dir name suffix ext : string) (sep : ascii) :
  sep = "/"%char \/ sep = PyStr.backslash ->
  filename_with_suffix (dir ++ String sep name) suffix ext
  = filename_with_suffix name suffix ext.
Proof.
  intros Hsep. unfold filename_with_suffix.
  rewrite (base_ignores_directory dir name sep Hsep). reflexivity.
Qed.

Lemma filename_ignores_directory_witness :
  filename_with_suffix ("shoot/day1" ++ String "/" "IMG_0042.JPG") "_web" "jpeg"
  = filename_with_suffix "IMG_0042.JPG" "_web" "jpeg".
Proof. apply filename_ignores_directory. left. reflexivity. Defined.



(** X3. Output names are not injective: two inputs that differ only in
    their directory and in their last extension get the same output name. *)
Theorem filename_collision (dir1 dir2 stem e1 e2 suffix ext : string) :
  PyStr.contains "/" stem = false ->
  PyStr.contains PyStr.backslash stem = false ->
  PyStr.contains "/" e1 = false -> PyStr.contains PyStr.backslash e1 = false ->
  PyStr.contains "." e1 = false ->
  PyStr.contains "/" e2 = false -> PyStr.contains PyStr.backslash e2 = false ->
  PyStr.contains "." e2 = false ->
  filename_with_suffix (dir1 ++ String "/" (stem ++ String "." e1)) suffix ext
  = filename_with_suffix (dir2 ++ String "/" (stem ++ String "." e2)) suffix ext.
Proof.
  intros.
  transitivity (filename_with_suffix (stem ++ String "." e1) suffix ext).
  { unfold filename_with_suffix.
    rewrite (base_ignores_directory dir1 _ "/"%char) by (left; reflexivity).
    reflexivity. }
  transitivity (filename_with_suffix (stem ++ String "." e2) suffix ext).
  { rewrite !fws_stem_ext by assumption. reflexivity. }
  unfold filename_with_suffix.
  rewrite (base_ignores_directory dir2 _ "/"%char) by (left; reflexivity).
  reflexivity.
Qed.

Lemma filename_collision_witness :
  filename_with_suffix ("raw" ++ String "/" ("photo" ++ String "." "png")) "_web" "jpeg"
  = filename_with_suffix ("edited" ++ String "/" ("photo" ++ String "." "tif")) "_web" "jpeg".
Proof. apply filename_collision; reflexivity. Defined.

(** ** Decode stage *)

Lemma kept_refl (s : store) : kept s s.
Proof. intros k x H. exact H. Qed.

Lemma kept_trans (s1 s2 s3 : store) : kept s1 s2 -> kept s2 s3 -> kept s1 s3.
Proof. intros H12 H23 k x H. apply H23, H12, H. Qed.

Lemma kept_insert_new (s : store) (l : ref) (x : Image) :
  s !! l = None -> kept s (<[l := x]> s).
Proof.
  intros Hl k y Hk. rewrite lookup_insert_ne; [exact Hk|].
  intros <-. congruence.
Qed.

Lemma kept_subseteq (s s' : store) : kept s s' <-> s ⊆ s'.
Proof. unfold kept. rewrite map_subseteq_spec. reflexivity. Qed.

(** One upload that is not an archive: the guarded block always returns,
    with the image list as it was or extended by one new object. *)
Lemma read_single_upload (lib : Pillow) (name : string) (data : bytes)
    (images : list (string * ref)) (s : store) :
  exists images' s',
    try_except
      (im ← Image_open lib data;
       im ← ImageOps_exif_transpose lib im;
       ret (images ++ [(name, im)])%list)
      (ret images) s = Some (Ret images', s')
    /\ kept s s'
    /\ (images' = images
        \/ exists l, images' = (images ++ [(name, l)])%list
                     /\ s !! l = None /\ is_Some (s' !! l)).
Proof.
  unfold try_except. rewrite bind_unfold. unfold Image_open.
  rewrite lift_bind.
  destruct (pil_open lib data) as [im|e].
  - rewrite new_run. rewrite bind_unfold. unfold ImageOps_exif_transpose.
    rewrite (bind_ret _ _ _ _ _ (load_run _ _ im (lookup_insert_eq _ _ _))).
    rewrite lift_bind.
    destruct (pil_exif_transpose lib im) as [im'|e].
    + rewrite new_run. cbn [ret].
      set (l1 := fresh (dom s)). set (s1 := <[l1 := im]> s).
      set (l2 := fresh (dom s1)).
      assert (H1 : s !! l1 = None) by apply fresh_None.
      assert (H2 : s1 !! l2 = None) by apply fresh_None.
      eexists _, _. split; [reflexivity|]. split.
      * eapply kept_trans; apply kept_insert_new; assumption.
      * right. exists l2. split; [reflexivity|]. split.
        -- apply lookup_insert_None in H2. tauto.
        -- rewrite lookup_insert_eq. eauto.
    + eexists _, _. split; [reflexivity|]. split; [|left; reflexivity].
      apply kept_insert_new, fresh_None.
  - eexists _, _. split; [reflexivity|]. split; [apply kept_refl | left; reflexivity].
Qed.

Lemma read_uploads_plain (lib : Pillow) (uploads : list UploadedFile)
    (images : list (string * ref)) (s : store) :
  Forall (fun uf => is_zip_upload uf = false) uploads ->
  exists added s',
    read_uploads lib uploads images s = Some (Ret (images ++ added)%list, s')
    /\ kept s s'
    /\ List.map fst added `sublist_of` List.map upload_name uploads
    /\ Forall (fun nl => s !! snd nl = None /\ is_Some (s' !! snd nl)) added.
Proof.
  intros Hplain. revert images s.
  induction Hplain as [|uf rest Hzip _ IH]; intros images s.
  - exists [], s. rewrite app_nil_r. split; [reflexivity|].
    split; [apply kept_refl|]. split; constructor.
  - simpl. unfold is_zip_upload, upload_name in Hzip. rewrite Hzip.
    destruct (read_single_upload lib (default "upload" (uf_name uf)) (uf_data uf)
                images s) as (images' & s1 & Hrun & Hkept & Hcase).
    rewrite (bind_ret _ _ _ _ _ Hrun).
    destruct (IH images' s1) as (added & s' & Hrest & Hkept' & Hsub & Hall).
    rewrite Hrest.
    destruct Hcase as [-> | (l & -> & Hfresh & Halloc)].
    + exists added, s'. split; [reflexivity|].
      split; [eapply kept_trans; eassumption|]. split.
      * apply sublist_cons, Hsub.
      * eapply Forall_impl; [exact Hall|]. intros [n l] [Hn Hl]. split; [|exact Hl].
        simpl in *. destruct (s !! l) as [x|] eqn:E; [|reflexivity].
        rewrite (Hkept _ _ E) in Hn. discriminate.
    + exists ((default "upload" (uf_name uf), l) :: added), s'.
      rewrite <- app_assoc. split; [reflexivity|].
      split; [eapply kept_trans; eassumption|]. split.
      * simpl. apply sublist_skip, Hsub.
      * constructor.
        -- simpl. split; [exact Hfresh|]. destruct Halloc as [x Hx].
           rewrite (Hkept' _ _ Hx). eauto.
        -- eapply Forall_impl; [exact Hall|]. intros [n l'] [Hn Hl]. split; [|exact Hl].
           simpl in *. destruct (s !! l') as [x|] eqn:E; [|reflexivity].
           rewrite (Hkept _ _ E) in Hn. discriminate.
Qed.



Example decode_example :
  fst <$> read_uploaded_images Toy.lib
            [Toy.good_upload; Toy.bad_upload; Toy.good_upload] ∅
  = Some (Ret [("a.jpg", 2%positive); ("a.jpg", 4%positive)]).
Proof. vm_compute. reflexivity. Qed.

(** X5. Of an archive only the entries that are not directories and whose
    lower-cased name ends in one of the image extensions are opened: the
    others might as well not be there. *)
Theorem zip_reads_image_entries_only (lib : Pillow) (data : bytes)
    (infos : list ZipInfo) (images : list (string * ref)) (s : store) :
  read_zip_entries lib data infos images s
  = read_zip_entries lib data (List.filter is_image_entry infos) images s.
Proof.
  revert images s. induction infos as [|info rest IH]; intros images s.
  - reflexivity.
  - cbn [read_zip_entries List.filter]. unfold is_image_entry at 1.
    destruct (zi_is_dir info) eqn:Ed; cbn [negb andb]; [apply IH|].
    destruct (PyStr.endswith_any (PyStr.lower (zi_filename info)) image_extensions)
      eqn:Ee; cbn [negb]; [|apply IH].
    cbn [read_zip_entries]. rewrite Ed, Ee. cbn [negb].
    rewrite !bind_unfold. unfold lift.
    destruct (zip_open lib data info) as [f|e]; [|reflexivity].
    rewrite !bind_unfold.
    destruct (try_except _ _ s) as [[[images'|e] s']|]; try reflexivity.
    apply IH.
Qed.

Example zip_skips_example :
  List.filter is_image_entry
    [ mkZipInfo false "a.JPG"; mkZipInfo false "notes.txt"; mkZipInfo true "b/";
      mkZipInfo false "b/c.tiff"; mkZipInfo true "d.png" ]
  = [ mkZipInfo false "a.JPG"; mkZipInfo false "b/c.tiff" ].
Proof. reflexivity. Qed.

Lemma read_uploads_app (lib : Pillow) (pre post : list UploadedFile)
    (images : list (string * ref)) (s : store) :
  read_uploads lib (pre ++ post) images s
  = (read_uploads lib pre images ≫= read_uploads lib post) s.
Proof.
  revert images s. induction pre as [|uf pre IH]; intros images s.
  - reflexivity.
  - cbn [read_uploads app]. rewrite !bind_unfold.
    match goal with
    | |- match ?step s with _ => _ end = _ =>
        destruct (step s) as [[[images'|e] s1]|]; try reflexivity
    end.
    apply IH.
Qed.

(** X6. An upload named like an archive that cannot be opened as one makes
    [read_uploaded_images] raise: the exception of [ZipFile] is not caught,
    and the images decoded from the uploads before it are lost with it. *)
Theorem bad_archive_aborts_decode (lib : Pillow) (pre rest : list UploadedFile)
    (uf : UploadedFile) (s : store) (e : exn) :
  Forall (fun uf => is_zip_upload uf = false) pre ->
  is_zip_upload uf = true ->
  zip_infolist lib (uf_data uf) = Raise e ->
  exists s', read_uploaded_images lib (pre ++ uf :: rest) s = Some (Raise e, s').
Proof.
  intros Hpre Hzip Hbad.
  destruct (read_uploads_plain lib pre [] s Hpre) as (added & s1 & Hrun & _).
  exists s1.
  assert (Hloop : read_uploads lib (pre ++ uf :: rest) [] s = Some (Raise e, s1)).
  { rewrite read_uploads_app, (bind_ret _ _ _ _ _ Hrun).
    cbn [read_uploads]. unfold is_zip_upload, upload_name in Hzip. rewrite Hzip.
    rewrite bind_unfold, lift_bind, Hbad. reflexivity. }
  unfold read_uploaded_images.
  destruct (pre ++ uf :: rest)%list eqn:E; [destruct pre; discriminate|].
  exact Hloop.
Qed.

Lemma bad_archive_aborts_decode_witness :
  exists s',
    read_uploaded_images Toy.lib ([Toy.good_upload] ++ Toy.zip_upload :: [Toy.good_upload]) ∅
    = Some (Raise BadZipFile, s').
Proof.
  apply (bad_archive_aborts_decode Toy.lib [Toy.good_upload] [Toy.good_upload]
           Toy.zip_upload ∅ BadZipFile).
  - repeat constructor.
  - reflexivity.
  - reflexivity.
Defined.

(** X7. For an image entry of an archive, a failure of [zf.open] is not
    caught and ends the reading of all uploads, while a failure of
    [f.read()] or of the decoder only drops that entry. *)
Theorem zip_entry_failures (lib : Pillow) (data : bytes) (info : ZipInfo)
    (rest : list ZipInfo) (images : list (string * ref)) (s : store) (e : exn) :
  is_image_entry info = true ->
  (zip_open lib data info = Raise e ->
   read_zip_entries lib data (info :: rest) images s = Some (Raise e, s))
  /\ (zip_open lib data info = Ret (Raise e) ->
      read_zip_entries lib data (info :: rest) images s
      = read_zip_entries lib data rest images s)
  /\ (forall raw, zip_open lib data info = Ret (Ret raw) ->
                  pil_open lib raw = Raise e ->
                  read_zip_entries lib data (info :: rest) images s
                  = read_zip_entries lib data rest images s).
Proof.
  intros Hentry. unfold is_image_entry in Hentry.
  apply andb_true_iff in Hentry as [Hdir Hext].
  apply negb_true_iff in Hdir.
  cbn [read_zip_entries]. rewrite Hdir, Hext. cbn [negb].
  repeat apply conj.
  - intros H. rewrite lift_bind, H. reflexivity.
  - intros H. rewrite lift_bind, H. rewrite bind_unfold. unfold try_except.
    rewrite lift_bind. reflexivity.
  - intros raw H Hopen. rewrite lift_bind, H. rewrite bind_unfold. unfold try_except.
    rewrite lift_bind. rewrite bind_unfold. unfold Image_open.
    rewrite lift_bind, Hopen. reflexivity.
Qed.

Lemma zip_entry_failures_witness :
  read_zip_entries (Toy.with_archive [] (fun _ => Raise BadZipFile)) []
    [mkZipInfo false "a.jpg"; mkZipInfo false "b.jpg"] [] ∅
  = Some (Raise BadZipFile, ∅)
  /\ read_zip_entries (Toy.with_archive [] (fun _ => Ret (Raise BadZipFile))) []
       [mkZipInfo false "a.jpg"; mkZipInfo false "b.jpg"] [] ∅
     = read_zip_entries (Toy.with_archive [] (fun _ => Ret (Raise BadZipFile))) []
         [mkZipInfo false "b.jpg"] [] ∅.
Proof.
  split.
  - apply (proj1 (zip_entry_failures (Toy.with_archive [] (fun _ => Raise BadZipFile))
                    [] (mkZipInfo false "a.jpg") [mkZipInfo false "b.jpg"] [] ∅
                    BadZipFile eq_refl)).
    reflexivity.
  - apply (proj1 (proj2 (zip_entry_failures
                    (Toy.with_archive [] (fun _ => Ret (Raise BadZipFile)))
                    [] (mkZipInfo false "a.jpg") [mkZipInfo false "b.jpg"] [] ∅
                    BadZipFile eq_refl))).
    reflexivity.
Defined.

(** ** Watermark geometry *)

Lemma compute_position_cases (bw bh ww wh m : Z) (position : string) :
  compute_position bw bh ww wh m position
  = Ret (if bool_decide (position = "top-left") then (m, m)
         else if bool_decide (position = "top-right") then (bw - ww - m, m)
         else if bool_decide (position = "bottom-left") then (m, bh - wh - m)
         else if bool_decide (position = "center")
              then ((bw - ww) / 2, (bh - wh) / 2)
         else (bw - ww - m, bh - wh - m)).
Proof.
  unfold compute_position, dict_item, dict_get.
  rewrite positions_lookup_bottom_right.
  unfold positions. cbn [list_to_map foldr fst snd uncurry].
  destruct (decide (position = "top-left")) as [->|H1]; [reflexivity|].
  rewrite (bool_decide_eq_false_2 _ H1).
  rewrite lookup_insert_ne by congruence.
  destruct (decide (position = "top-right")) as [->|H2]; [reflexivity|].
  rewrite (bool_decide_eq_false_2 _ H2).
  rewrite lookup_insert_ne by congruence.
  destruct (decide (position = "bottom-left")) as [->|H3]; [reflexivity|].
  rewrite (bool_decide_eq_false_2 _ H3).
  rewrite lookup_insert_ne by congruence.
  destruct (decide (position = "center")) as [->|H4]; [reflexivity|].
  rewrite (bool_decide_eq_false_2 _ H4).
  destruct (decide (position = "bottom-right")) as [->|H5]; [reflexivity|].
  rewrite !lookup_insert_ne by congruence.
  rewrite lookup_empty. reflexivity.
Qed.

(** X8. Whatever the position value, recognized or not, a watermark that
    fits into the base together with a non-negative margin is placed
    entirely on the canvas. *)
Theorem watermark_placed_on_canvas (bw bh ww wh m : Z) (position : string) :
  0 <= m -> ww + m <= bw -> wh + m <= bh ->
  exists x y,
    compute_position bw bh ww wh m position = Ret (x, y)
    /\ 0 <= x /\ x + ww <= bw /\ 0 <= y /\ y + wh <= bh.
Proof.
  intros Hm Hw Hh. rewrite compute_position_cases.
  assert (Hcx : 0 <= (bw - ww) / 2 <= bw - ww).
  { split; [apply Z.div_pos; lia|]. apply Z.div_le_upper_bound; lia. }
  assert (Hcy : 0 <= (bh - wh) / 2 <= bh - wh).
  { split; [apply Z.div_pos; lia|]. apply Z.div_le_upper_bound; lia. }
  repeat case_bool_decide; eexists _, _; (split; [reflexivity|]); lia.
Qed.

Lemma watermark_placed_on_canvas_witness :
  exists x y,
    compute_position 1000 800 120 96 24 "center" = Ret (x, y)
    /\ 0 <= x /\ x + 120 <= 1000 /\ 0 <= y /\ y + 96 <= 800.
Proof. apply watermark_placed_on_canvas; lia. Defined.

(** X9. Nothing clamps the offset: at the right or bottom edge (and for an
    unrecognized position) a watermark wider than the base less the margin
    gets a negative horizontal offset. *)
Theorem watermark_offset_not_clamped (bw bh ww wh m : Z) (position : string) :
  position <> "top-left" -> position <> "bottom-left" -> position <> "center" ->
  bw < ww + m ->
  exists x y, compute_position bw bh ww wh m position = Ret (x, y) /\ x < 0.
Proof.
  intros H1 H2 H3 Hwide. rewrite compute_position_cases.
  rewrite (bool_decide_eq_false_2 _ H1), (bool_decide_eq_false_2 _ H2),
    (bool_decide_eq_false_2 _ H3).
  case_bool_decide; eexists _, _; (split; [reflexivity|]); lia.
Qed.

Lemma watermark_offset_not_clamped_witness :
  exists x y, compute_position 100 80 40 32 200 "bottom-right" = Ret (x, y) /\ x < 0.
Proof. apply watermark_offset_not_clamped; (discriminate || lia). Defined.

(** X10. The size that [apply_watermark] asks of [resize] is never below
    1x1: either the size computation raises before the library is called,
    or [resize] is called with both dimensions at least 1. *)
Theorem watermark_resize_at_least_1x1 (lib : Pillow) (s : store) (base wm : ref)
    (b w : Image) (scale_pct : number) :
  s !! base = Some b ->
  s !! wm = Some w ->
  (exists e, scale_watermark lib base wm scale_pct s = Some (Raise e, s))
  \/ (exists tw th,
        1 <= tw /\ 1 <= th
        /\ scale_watermark lib base wm scale_pct s
           = Image_resize lib wm (tw, th) LANCZOS s).
Proof.
  intros Hb Hw. unfold scale_watermark.
  rewrite (bind_ret _ _ _ _ _ (load_run _ _ _ Hb)).
  rewrite (bind_ret _ _ _ _ _ (load_run _ _ _ Hw)).
  rewrite lift_bind.
  destruct (watermark_size (width b) (width w) (height w) scale_pct)
    as [[tw th]|e] eqn:E.
  - right. exists tw, th. destruct (watermark_size_floor _ _ _ _ _ _ E).
    repeat split; assumption.
  - left. eauto.
Qed.

Lemma watermark_resize_at_least_1x1_witness :
  (exists e, scale_watermark Toy.lib 1%positive 2%positive (Int 0)
               (Toy.store2 (Toy.rgb 1000 800) (Toy.rgb 50 40))
             = Some (Raise e, Toy.store2 (Toy.rgb 1000 800) (Toy.rgb 50 40)))
  \/ (exists tw th,
        1 <= tw /\ 1 <= th
        /\ scale_watermark Toy.lib 1%positive 2%positive (Int 0)
             (Toy.store2 (Toy.rgb 1000 800) (Toy.rgb 50 40))
           = Image_resize Toy.lib 2%positive (tw, th) LANCZOS
               (Toy.store2 (Toy.rgb 1000 800) (Toy.rgb 50 40))).
Proof.
  apply (watermark_resize_at_least_1x1 Toy.lib _ _ _ (Toy.rgb 1000 800) (Toy.rgb 50 40));
    reflexivity.
Defined.

Example watermark_size_examples :
  watermark_size 1000 50 40 (Int 12) = Ret (120, 96)
  /\ watermark_size 1000 50 40 (Int 0) = Ret (1, 1)
  /\ watermark_size 3 500 100 (Int 10) = Ret (1, 1)
  /\ watermark_size 1000 0 40 (Int 12) = Raise ZeroDivisionError.
Proof. repeat split; vm_compute; reflexivity. Qed.

(** ** Encoder: formats and options *)

(** X11. Options without effect: for WEBP the progressive and optimize
    flags are not passed on; for any format other than JPEG and WEBP the
    image is saved as PNG and none of quality, progressive, optimize and
    keep_metadata matters. *)
Theorem encoder_ignored_options (lib : Pillow) (img : ref) (fmt : string)
    (q q' : Z) (p p' o o' k k' : bool) :
  (PyStr.upper fmt = "WEBP" ->
   save_image_bytes lib img fmt q p o k = save_image_bytes lib img fmt q p' o' k)
  /\ (PyStr.upper fmt <> "JPEG" -> PyStr.upper fmt <> "WEBP" ->
      save_image_bytes lib img fmt q p o k = save_image_bytes lib img "PNG" q' p' o' k').
Proof.
  split.
  - intros Hfmt. unfold save_image_bytes. rewrite Hfmt.
    rewrite (bool_decide_eq_false_2 ("WEBP" = "JPEG")) by discriminate.
    reflexivity.
  - intros Hj Hw. unfold save_image_bytes.
    rewrite (bool_decide_eq_false_2 _ Hj), (bool_decide_eq_false_2 _ Hw).
    reflexivity.
Qed.

Lemma encoder_ignored_options_witness :
  save_image_bytes Toy.lib 1%positive "webp" 80 true true false
  = save_image_bytes Toy.lib 1%positive "webp" 80 false false false
  /\ save_image_bytes Toy.lib 1%positive "tiff" 80 true true true
     = save_image_bytes Toy.lib 1%positive "PNG" 40 false false false.
Proof.
  split.
  - apply (proj1 (encoder_ignored_options Toy.lib 1%positive "webp" 80 80
                    true false true false false false)).
    reflexivity.
  - apply (proj2 (encoder_ignored_options Toy.lib 1%positive "tiff" 80 40
                    true false true false true false)); discriminate.
Defined.



(** ** Rules for [settles] *)

Lemma settles_ret {A} (a : A) (s : store) (Q : outcome A -> store -> Prop) :
  Q (Ret a) s -> settles (ret a) s Q.
Proof. intros H. exists (Ret a), s. split; [reflexivity | exact H]. Qed.

Lemma settles_lift {A} (o : outcome A) (s : store) (Q : outcome A -> store -> Prop) :
  Q o s -> settles (lift o) s Q.
Proof. intros H. exists o, s. split; [reflexivity | exact H]. Qed.

Lemma settles_returns {A} (m : Py A) (s : store) (Q : outcome A -> store -> Prop) :
  returns m s (fun a s' => Q (Ret a) s') -> settles m s Q.
Proof. intros (a & s' & Hm & HQ). exists (Ret a), s'. split; assumption. Qed.

Lemma settles_bind {A B} (m : Py A) (k : A -> Py B) (s : store)
    (Q : outcome B -> store -> Prop) :
  settles m s (fun o s' =>
    match o with
    | Ret a => settles (k a) s' Q
    | Raise e => Q (Raise e) s'
    end) ->
  settles (m ≫= k) s Q.
Proof.
  intros ([a|e] & s' & Hm & H).
  - destruct H as (o & s'' & Hk & HQ). exists o, s''. split; [|exact HQ].
    rewrite (bind_ret _ _ _ _ _ Hm). exact Hk.
  - exists (Raise e), s'. split; [|exact H]. apply bind_raise, Hm.
Qed.

Lemma settles_bind_returns {A B} (m : Py A) (k : A -> Py B) (s : store)
    (Q : outcome B -> store -> Prop) :
  returns m s (fun a s' => settles (k a) s' Q) -> settles (m ≫= k) s Q.
Proof.
  intros H. apply settles_bind.
  destruct H as (a & s' & Hm & H). exists (Ret a), s'. split; assumption.
Qed.

Lemma settles_bind_lift {A B} (o : outcome A) (k : A -> Py B) (s : store)
    (Q : outcome B -> store -> Prop) :
  (forall a, o = Ret a -> settles (k a) s Q) ->
  (forall e, o = Raise e -> Q (Raise e) s) ->
  settles (lift o ≫= k) s Q.
Proof.
  intros HR HE. apply settles_bind, settles_lift.
  destruct o as [a|e]; [apply HR | apply HE]; reflexivity.
Qed.

Lemma settles_mono {A} (m : Py A) (s : store) (Q Q' : outcome A -> store -> Prop) :
  settles m s Q -> (forall o s', Q o s' -> Q' o s') -> settles m s Q'.
Proof. intros (o & s' & Hm & HQ) H. exists o, s'. split; [exact Hm | apply H, HQ]. Qed.

(** ** The pipeline leaves its inputs alone *)

(** What [ensure_rgb_and_srgb] does, without any assumption on the
    library beyond the stated laws where they are named. *)
Lemma ensure_rgb_settles (lib : Pillow) (s : store) (img : ref) (im : Image)
    (convert_to_srgb : bool) :
  s !! img = Some im ->
  returns (ensure_rgb_and_srgb lib img convert_to_srgb) s (fun r s' =>
    kept s s'
    /\ (convert_to_srgb = true -> s !! r = None)
    /\ (convert_to_srgb = false ->
        (im_mode im = "RGB" \/ im_mode im = "RGBA") -> r = img /\ s' = s)
    /\ exists x,
         s' !! r = Some x
         /\ (ModeLaws lib ->
             (im_mode x = "RGB" \/ im_mode x = "RGBA")
             /\ (convert_to_srgb = true -> im_mode x = "RGB"))).
Proof.
  intros Him. unfold ensure_rgb_and_srgb, returns. destruct convert_to_srgb.
  - assert (Hplain : exists x,
              (ModeLaws lib -> im_mode x = "RGB")
              /\ (try_except
                    (im ← load img;
                     match im_info im !! "icc_profile" with
                     | Some icc =>
                         src_profile ← lift (cms_ImageCmsProfile lib icc);
                         dst_profile ← lift (cms_createProfile lib "sRGB");
                         ImageCms_profileToProfile lib img src_profile dst_profile "RGB"
                     | None => Image_convert lib img "RGB"
                     end)
                    (Image_convert lib img "RGB")) s
                 = Some (Ret (fresh (dom s)), <[fresh (dom s) := x]> s)).
    { unfold try_except.
      rewrite (bind_ret _ _ _ _ _ (load_run _ _ _ Him)).
      pose proof (Image_convert_run lib s img im "RGB" Him) as Hconv.
      assert (Hfallback : exists x,
                (ModeLaws lib -> im_mode x = "RGB")
                /\ Image_convert lib img "RGB" s
                   = Some (Ret (fresh (dom s)), <[fresh (dom s) := x]> s)).
      { eexists. split; [|exact Hconv]. intros M. apply convert_mode, M. }
      destruct (im_info im !! "icc_profile") as [icc|].
      - rewrite lift_bind.
        destruct (cms_ImageCmsProfile lib icc) as [src|e]; [|exact Hfallback].
        rewrite lift_bind.
        destruct (cms_createProfile lib "sRGB") as [dst|e]; [|exact Hfallback].
        rewrite (ImageCms_profileToProfile_run lib _ _ _ _ _ _ Him).
        destruct (cms_profileToProfile lib im src dst "RGB") as [r|e] eqn:E;
          [|exact Hfallback].
        exists r. split; [|reflexivity]. intros M.
        eapply profileToProfile_mode; eassumption.
      - rewrite Hconv. destruct Hfallback as (x & Hx & Hrun). rewrite Hconv in Hrun.
        exists x. split; [exact Hx | exact Hrun]. }
    destruct Hplain as (x & Hmode & Hrun).
    eexists _, _. split; [exact Hrun|].
    split; [apply kept_insert_new, fresh_None|].
    split; [intros _; apply fresh_None|].
    split; [discriminate|].
    exists x. split; [apply lookup_insert_eq|].
    intros M. split; [left; apply Hmode, M | intros _; apply Hmode, M].
  - rewrite (bind_ret _ _ _ _ _ (load_run _ _ _ Him)).
    destruct (bool_decide (im_mode im ∈ ["RGB"; "RGBA"])) eqn:E; cbn [negb].
    + apply bool_decide_eq_true_1 in E.
      assert (Hm : im_mode im = "RGB" \/ im_mode im = "RGBA").
      { apply elem_of_cons in E as [E|E]; [left; exact E|].
        apply elem_of_cons in E as [E|E]; [right; exact E|].
        apply elem_of_nil in E. contradiction. }
      exists img, s. split; [reflexivity|].
      split; [apply kept_refl|]. split; [discriminate|].
      split; [auto|]. exists im. split; [exact Him|].
      intros _. split; [exact Hm | discriminate].
    + apply bool_decide_eq_false_1 in E.
      rewrite (Image_convert_run lib _ _ _ "RGB" Him).
      eexists _, _. split; [reflexivity|].
      split; [apply kept_insert_new, fresh_None|]. split; [discriminate|].
      split.
      { intros _ Hm. exfalso. apply E.
        destruct Hm as [-> | ->];
          repeat first [apply list_elem_of_here | apply list_elem_of_further]. }
      eexists. split; [apply lookup_insert_eq|].
      intros M. split; [left; apply convert_mode, M | discriminate].
Qed.

Lemma resize_settles (lib : Pillow) (s : store) (img : ref) (im : Image) (target : Z) :
  s !! img = Some im ->
  settles (resize_to_long_edge lib img target) s (fun o s' =>
    kept s s'
    /\ forall r, o = Ret r ->
         exists x, s' !! r = Some x /\ (AlphaLaws lib -> im_mode x = im_mode im)).
Proof.
  intros Him. unfold resize_to_long_edge.
  apply settles_bind_returns, (returns_load _ _ _ _ Him).
  destruct (im_size im) as [w h].
  destruct ((target <=? 0) || (Z.max w h <=? target)).
  - apply settles_ret. split; [apply kept_refl|].
    intros r [= <-]. exists im. split; [exact Him | reflexivity].
  - apply settles_bind_lift.
    + intros size _. unfold Image_resize.
      apply settles_bind_returns, (returns_load _ _ _ _ Him).
      apply settles_bind_lift.
      * intros x Hx. apply settles_returns, returns_new. intros l Hl.
        split; [apply kept_insert_new, Hl|].
        intros r [= <-]. exists x. split; [apply lookup_insert_eq|].
        intros A. apply (resize_shape lib A _ _ _ _ Hx).
      * intros e _. split; [apply kept_refl | discriminate].
    + intros e _. split; [apply kept_refl | discriminate].
Qed.

Lemma apply_opacity_settles (lib : Pillow) (s : store) (wm : ref) (w : Image)
    (pct : number) :
  s !! wm = Some w ->
  settles (apply_opacity lib wm pct) s (fun _ s' =>
    (forall k x, k <> wm -> s !! k = Some x -> s' !! k = Some x)
    /\ (forall k, s' !! k = None -> s !! k = None)
    /\ exists w', s' !! wm = Some w').
Proof.
  intros Hwm. unfold apply_opacity.
  destruct (PyNum.leb (Int 0) pct && PyNum.ltb pct (Int 100)).
  2: { apply settles_ret. split; [auto|]. split; [auto | eauto]. }
  apply settles_bind_returns, (Image_split_returns lib _ _ _ _ Hwm).
  intros ls s1 Hall _ Hkeep.
  assert (Hnone1 : forall k, s1 !! k = None -> s !! k = None).
  { intros k Hk. destruct (s !! k) as [x|] eqn:E; [|reflexivity].
    rewrite (Hkeep _ _ E) in Hk. discriminate. }
  assert (Hdone :
            (forall k x, k <> wm -> s !! k = Some x -> s1 !! k = Some x)
            /\ (forall k, s1 !! k = None -> s !! k = None)
            /\ exists w', s1 !! wm = Some w').
  { split; [intros k x _; apply Hkeep|]. split; [exact Hnone1|].
    exists w. apply Hkeep, Hwm. }
  apply settles_bind_lift; [|intros e _; exact Hdone].
  intros la Hla.
  apply settles_bind_lift; [|intros e _; exact Hdone].
  intros factor _.
  unfold Brightness_enhance.
  (* the band read here is one of the bands just allocated *)
  assert (Ha : exists a, s1 !! la = Some a).
  { unfold item_last in Hla.
    destruct (last ls) as [l|] eqn:El; [|discriminate].
    injection Hla as ->.
    pose proof (Forall2_last _ _ _ Hall) as Hl. rewrite El in Hl.
    inversion Hl; eauto. }
  destruct Ha as [a Ea].
  apply settles_bind_returns, returns_bind, (returns_load _ _ _ _ Ea), returns_new.
  intros l5 Hl5.
  assert (Hne : wm <> l5) by (intros ->; rewrite (Hkeep _ _ Hwm) in Hl5; discriminate).
  unfold Image_putalpha.
  apply settles_returns, returns_bind, (returns_load _ w).
  { rewrite lookup_insert_ne by (apply not_eq_sym, Hne). apply Hkeep, Hwm. }
  apply returns_bind, (returns_load _ (pil_brightness_enhance lib a factor)).
  { apply lookup_insert_eq. }
  apply returns_update. split; [|split].
  - intros k x Hk Hs. rewrite lookup_insert_ne by (apply not_eq_sym, Hk).
    rewrite lookup_insert_ne; [apply Hkeep, Hs|].
    intros <-. rewrite (Hkeep _ _ Hs) in Hl5. discriminate.
  - intros k Hk. apply lookup_insert_None in Hk as [Hk _].
    apply lookup_insert_None in Hk as [Hk _]. apply Hnone1, Hk.
  - eexists. apply lookup_insert_eq.
Qed.

Ltac kept_via H :=
  let k := fresh "k" in
  let x := fresh "x" in
  let Hk := fresh "Hk" in
  intros k x Hk; pose proof (H _ _ Hk); solve_lookup.

Lemma apply_watermark_settles (lib : Pillow) (s : store) (base watermark : ref)
    (b w : Image) (position : string) (scale_pct opacity_pct : number) (margin : Z) :
  s !! base = Some b ->
  s !! watermark = Some w ->
  settles (apply_watermark lib base (Some watermark) position scale_pct
             opacity_pct margin) s (fun o s' =>
    kept s s'
    /\ forall r, o = Ret r -> exists y, s' !! r = Some (pil_convert lib y "RGB")).
Proof.
  intros Hbase Hwm. unfold apply_watermark.
  apply settles_bind_returns, (returns_convert lib _ _ _ _ _ Hbase). intros base' Hb'.
  apply settles_bind_returns, (returns_convert lib _ _ w); [solve_lookup|].
  intros wm' Hwm'. fresh_facts Hwm'.
  set (cb := pil_convert lib b "RGBA"). set (cw := pil_convert lib w "RGBA").
  set (s2 := <[wm' := cw]> (<[base' := cb]> s)).
  assert (H2 : kept s s2) by (intros k x Hk; unfold s2; solve_lookup).
  assert (H2base : s2 !! base' = Some cb) by (unfold s2; solve_lookup).
  assert (H2wm : s2 !! wm' = Some cw) by (unfold s2; solve_lookup).
  assert (H2none : forall k, s2 !! k = None -> s !! k = None).
  { intros k Hk. unfold s2 in Hk. fresh_facts Hk. exact Hk. }
  clearbody s2.
  apply settles_bind. unfold scale_watermark.
  apply settles_bind_returns, (returns_load _ _ _ _ H2base).
  apply settles_bind_returns, (returns_load _ _ _ _ H2wm).
  apply settles_bind_lift; [|intros e _; split; [exact H2 | discriminate]].
  intros size _. unfold Image_resize.
  apply settles_bind_returns, (returns_load _ _ _ _ H2wm).
  apply settles_bind_lift; [|intros e _; split; [exact H2 | discriminate]].
  intros w1 _. apply settles_returns, returns_new. intros wm1 Hwm1.
  set (s3 := <[wm1 := w1]> s2).
  assert (H3 : kept s s3) by (unfold s3; kept_via H2).
  assert (H3base : s3 !! base' = Some cb) by (unfold s3; solve_lookup).
  assert (H3wm1 : s3 !! wm1 = Some w1) by (unfold s3; solve_lookup).
  assert (Hwm1s : s !! wm1 = None) by apply H2none, Hwm1.
  assert (Hbw : base' <> wm1) by congruence.
  clearbody s3.
  apply settles_bind.
  apply (settles_mono _ _ _ _ (apply_opacity_settles lib s3 wm1 w1 opacity_pct H3wm1)).
  intros o s4 (H4frame & H4none & w4 & H4wm1).
  assert (H4 : kept s s4).
  { intros k x Hk. apply H4frame; [congruence | apply H3, Hk]. }
  destruct o as [[]|e]; [|split; [exact H4 | discriminate]].
  assert (H4base : s4 !! base' = Some cb) by (apply H4frame; assumption).
  apply settles_bind_returns, (returns_load _ _ _ _ H4base).
  apply settles_bind_returns, (returns_load _ _ _ _ H4wm1).
  apply settles_bind_lift; [|intros e _; split; [exact H4 | discriminate]].
  intros xy _.
  apply settles_bind_returns, (returns_copy _ _ _ _ H4base). intros out Hout.
  assert (Hwo : wm1 <> out) by congruence.
  apply settles_bind. unfold Image_alpha_composite.
  apply settles_bind_returns, (returns_load _ cb); [solve_lookup|].
  apply settles_bind_returns, (returns_load _ w4); [solve_lookup|].
  apply settles_bind_lift.
  2: { intros e _. split; [kept_via H4 | discriminate]. }
  intros r _. apply settles_returns, returns_update.
  apply settles_returns, (returns_convert lib _ _ r); [solve_lookup|].
  intros rr Hrr. fresh_facts Hrr. split.
  - kept_via H4.
  - intros r' [= <-]. exists r. solve_lookup.
Qed.

Lemma process_one_settles (lib : Pillow) (s : store) (image : ref) (im : Image)
    (target : Z) (fmt : string) (q : Z) (p o srgb k : bool) (wm_img : option ref)
    (pos : string) (scale_pct opacity_pct : number) (margin : Z) :
  s !! image = Some im ->
  allocated s wm_img ->
  settles (process_one lib image target fmt q p o srgb k wm_img pos scale_pct
             opacity_pct margin) s (fun out s' =>
    kept s s'
    /\ forall r, out = Ret r ->
         exists x, s' !! r = Some x
                   /\ (ModeLaws lib -> AlphaLaws lib ->
                       (im_mode x = "RGB" \/ im_mode x = "RGBA")
                       /\ (srgb = true \/ is_Some wm_img -> im_mode x = "RGB"))).
Proof.
  intros Him Hwm. unfold process_one.
  apply settles_bind_returns.
  apply (returns_mono _ _ _ _ (ensure_rgb_settles lib s image im srgb Him)).
  intros img1 s1 (H1 & _ & _ & x1 & Hx1 & Hmode1).
  apply settles_bind.
  apply (settles_mono _ _ _ _ (resize_settles lib s1 img1 x1 target Hx1)).
  intros [img2|e] s2 [H12 Hres].
  2: { split; [eapply kept_trans; eassumption | discriminate]. }
  destruct (Hres img2 eq_refl) as (x2 & Hx2 & Hmode2).
  assert (H2 : kept s s2) by (eapply kept_trans; eassumption).
  destruct wm_img as [w|].
  - destruct Hwm as [wi Hwi].
    apply (settles_mono _ _ _ _
             (apply_watermark_settles lib s2 img2 w x2 wi pos scale_pct opacity_pct
                margin Hx2 (H2 _ _ Hwi))).
    intros out s3 [H23 Hout]. split; [eapply kept_trans; eassumption|].
    intros r Hr. destruct (Hout r Hr) as [y Hy]. eexists. split; [exact Hy|].
    intros M _. assert (im_mode (pil_convert lib y "RGB") = "RGB") by apply convert_mode, M.
    split; [left; assumption | intros _; assumption].
  - apply settles_ret. split; [exact H2|].
    intros r [= <-]. exists x2. split; [exact Hx2|].
    intros M A. destruct (Hmode1 M) as [Hm1 Hs1]. rewrite (Hmode2 A).
    split; [exact Hm1|].
    intros [Hs | [? Hnone]]; [apply Hs1, Hs | discriminate].
Qed.

(** X13. [process_one] always comes to an end, returning an image or
    raising, and whatever it does it leaves every existing object as it
    was: in particular the source image and the watermark image, which the
    batch uses again for the next image, are never modified. *)
Theorem process_one_preserves_inputs (lib : Pillow) (s : store) (image : ref)
    (im : Image) (target : Z) (fmt : string) (q : Z) (p o srgb k : bool)
    (wm_img : option ref) (pos : string) (scale_pct opacity_pct : number)
    (margin : Z) :
  s !! image = Some im ->
  allocated s wm_img ->
  exists out s',
    process_one lib image target fmt q p o srgb k wm_img pos scale_pct
      opacity_pct margin s = Some (out, s')
    /\ s ⊆ s'.
Proof.
  intros Him Hwm.
  destruct (process_one_settles lib s image im target fmt q p o srgb k wm_img pos
              scale_pct opacity_pct margin Him Hwm) as (out & s' & Hrun & Hkept & _).
  exists out, s'. split; [exact Hrun | apply kept_subseteq, Hkept].
Qed.

Lemma process_one_preserves_inputs_witness :
  exists out s',
    process_one Toy.lib 1%positive 256 "JPEG" 85 true true true false
      (Some 2%positive) "bottom-right" (Int 12) (Int 70) 24
      (Toy.store2 (Toy.rgb 1000 800) (Toy.rgb 50 40)) = Some (out, s')
    /\ Toy.store2 (Toy.rgb 1000 800) (Toy.rgb 50 40) ⊆ s'.
Proof.
  apply (process_one_preserves_inputs Toy.lib _ _ (Toy.rgb 1000 800)).
  - reflexivity.
  - exists (Toy.rgb 50 40). reflexivity.
Defined.

(** X14. Whenever [process_one] returns an image, its mode is RGB or RGBA,
    and it is RGB as soon as the sRGB conversion is on or a watermark is
    applied: only without both can an RGBA input keep its alpha. *)
Theorem process_one_output_mode (lib : Pillow) (M : ModeLaws lib) (A : AlphaLaws lib)
    (s s' : store) (image r : ref) (im : Image) (target : Z) (fmt : string)
    (q : Z) (p o srgb k : bool) (wm_img : option ref) (pos : string)
    (scale_pct opacity_pct : number) (margin : Z) :
  s !! image = Some im ->
  allocated s wm_img ->
  process_one lib image target fmt q p o srgb k wm_img pos scale_pct
    opacity_pct margin s = Some (Ret r, s') ->
  exists x, s' !! r = Some x
            /\ (im_mode x = "RGB" \/ im_mode x = "RGBA")
            /\ (srgb = true \/ is_Some wm_img -> im_mode x = "RGB").
Proof.
  intros Him Hwm Hrun.
  destruct (process_one_settles lib s image im target fmt q p o srgb k wm_img pos
              scale_pct opacity_pct margin Him Hwm) as (out & s'' & Hrun' & _ & Hout).
  rewrite Hrun in Hrun'. injection Hrun' as <- <-.
  destruct (Hout r eq_refl) as (x & Hx & Hmode).
  exists x. split; [exact Hx | apply Hmode; assumption].
Qed.

Lemma process_one_output_mode_witness :
  exists x,
    <[2%positive := Toy.convert Toy.cmyk "RGB"]> (Toy.store1 Toy.cmyk) !! 2%positive
    = Some x
    /\ (im_mode x = "RGB" \/ im_mode x = "RGBA")
    /\ (false = true \/ is_Some (@None ref) -> im_mode x = "RGB").
Proof.
  apply (process_one_output_mode Toy.lib Toy_mode_laws Toy_alpha_laws
           (Toy.store1 Toy.cmyk) _ 1%positive 2%positive Toy.cmyk 256 "JPEG" 85
           true true false false None "center" (Int 12) (Int 70) 24).
  - reflexivity.
  - exact I.
  - vm_compute. reflexivity.
Defined.

(** X15. With the sRGB conversion off and no watermark, an RGB or RGBA
    image that is within the target goes through [process_one] untouched:
    the result is the very object that was passed in, and nothing is
    allocated. *)
Theorem process_one_identity (lib : Pillow) (s : store) (image : ref) (im : Image)
    (target : Z) (fmt : string) (q : Z) (p o k : bool) (pos : string)
    (scale_pct opacity_pct : number) (margin : Z) :
  s !! image = Some im ->
  im_mode im = "RGB" \/ im_mode im = "RGBA" ->
  target <= 0 \/ Z.max (width im) (height im) <= target ->
  process_one lib image target fmt q p o false k None pos scale_pct
    opacity_pct margin s = Some (Ret image, s).
Proof.
  intros Him Hmode Hsize. unfold process_one.
  destruct (ensure_rgb_settles lib s image im false Him)
    as (r & s1 & Hrun & _ & _ & Hsame & _).
  destruct (Hsame eq_refl Hmode) as [-> ->].
  rewrite (bind_ret _ _ _ _ _ Hrun).
  assert (Hres : resize_to_long_edge lib image target s = Some (Ret image, s)).
  { unfold resize_to_long_edge.
    rewrite (bind_ret _ _ _ _ _ (load_run _ _ _ Him)).
    unfold width, height in Hsize. destruct (im_size im) as [w h]. simpl in Hsize.
    replace ((target <=? 0) || (Z.max w h <=? target)) with true; [reflexivity|].
    symmetry. apply orb_true_iff.
    destruct Hsize; [left | right]; apply Z.leb_le; assumption. }
  rewrite (bind_ret _ _ _ _ _ Hres). reflexivity.
Qed.

Lemma process_one_identity_witness :
  process_one Toy.lib 1%positive 2048 "WEBP" 85 true true false false None "center"
    (Int 12) (Int 70) 24 (Toy.store1 (Toy.rgb 1200 600))
  = Some (Ret 1%positive, Toy.store1 (Toy.rgb 1200 600)).
Proof.
  apply (process_one_identity Toy.lib _ _ (Toy.rgb 1200 600)).
  - reflexivity.
  - left. reflexivity.
  - right. vm_compute. discriminate.
Defined.

(** ** The batch *)

Lemma process_all_settles (lib : Pillow) (cfg : Settings) (wm : option ref)
    (images : list (string * ref)) (acc : list (string * bytes)) (s : store) :
  Forall (fun ni => is_Some (s !! snd ni)) images ->
  allocated s wm ->
  settles (process_all lib cfg wm images acc) s (fun out s' =>
    kept s s'
    /\ forall results, out = Ret results ->
         length results = (length acc + length images)%nat).
Proof.
  revert acc s. induction images as [|[name img] rest IH]; intros acc s Himgs Hwm.
  - apply settles_ret. split; [apply kept_refl|].
    intros results [= <-]. simpl. lia.
  - apply Forall_cons in Himgs as [[im Him] Hrest]. cbn [snd] in Him.
    cbn [process_all]. apply settles_bind.
    apply (settles_mono _ _ _ _
             (process_one_settles lib s img im _ _ _ _ _ _ _ wm _ _ _ _ Him Hwm)).
    intros [out|e] s1 [H1 Hout]; [|split; [exact H1 | discriminate]].
    destruct (Hout out eq_refl) as (x & Hx & _).
    destruct (save_image_bytes_frame lib s1 out x (out_fmt cfg) (quality cfg)
                (progressive cfg) (optimize cfg) (keep_metadata cfg) Hx)
      as (r & s2 & Hsave & Hsub).
    apply kept_subseteq in Hsub.
    assert (H2 : kept s s2) by (eapply kept_trans; eassumption).
    apply settles_bind. exists r, s2. split; [exact Hsave|].
    destruct r as [b|e]; [|split; [exact H2 | discriminate]].
    eapply settles_mono.
    + apply IH.
      * eapply Forall_impl; [exact Hrest|]. intros [n l] [y Hy].
        exists y. apply H2, Hy.
      * destruct wm as [w|]; [|exact I]. destruct Hwm as [y Hy].
        exists y. apply H2, Hy.
    + intros o' s' [H' Hlen]. split; [eapply kept_trans; eassumption|].
      intros results Hr. rewrite (Hlen results Hr), length_app. simpl. lia.
Qed.

(** X16. The handler of "Process images" always comes to an end, with a
    widget or with an exception, and leaves every image it was given, and
    the watermark, exactly as they were: each image of the batch is
    processed from its original state and with the same watermark. *)
Theorem batch_preserves_inputs (lib : Pillow) (cfg : Settings) (wm : option ref)
    (now : datetime) (images : list (string * ref)) (s : store) :
  Forall (fun ni => is_Some (s !! snd ni)) images ->
  allocated s wm ->
  exists out s',
    process_images lib cfg wm now images s = Some (out, s') /\ s ⊆ s'.
Proof.
  intros Himgs Hwm. unfold process_images.
  destruct images as [|ni rest] eqn:E.
  - exists (Ret (st_warning "No images to process.")), s. split; reflexivity.
  - rewrite <- E in *.
    destruct (process_all_settles lib cfg wm images [] s Himgs Hwm)
      as (out & s' & Hrun & Hkept & _).
    rewrite bind_unfold, Hrun. destruct out as [results|e].
    + eexists _, _. split; [reflexivity | apply kept_subseteq, Hkept].
    + eexists _, _. split; [reflexivity | apply kept_subseteq, Hkept].
Qed.

Lemma batch_preserves_inputs_witness :
  exists out s',
    process_images Toy.lib Toy.cfg (Some 3%positive) Toy.now
      [("a.jpg", 1%positive); ("b.png", 2%positive)]
      (Toy.store3 (Toy.rgb 800 600) (Toy.rgb 1 600) (Toy.rgb 50 40)) = Some (out, s')
    /\ Toy.store3 (Toy.rgb 800 600) (Toy.rgb 1 600) (Toy.rgb 50 40) ⊆ s'.
Proof.
  apply batch_preserves_inputs.
  - repeat constructor; eexists; reflexivity.
  - eexists. reflexivity.
Defined.

(** X17. What a successful export delivers: for one image, a file named
    after that image (base name, suffix, lower-cased format) with the MIME
    type of the format; for several, an archive named
    exports_<timestamp>.zip whose entries carry the output names of the
    images, one per image and in input order. *)
Theorem batch_delivery_names (lib : Pillow) (cfg : Settings) (wm : option ref)
    (now : datetime) (images : list (string * ref)) (widget : Widget)
    (s s' : store) :
  process_images lib cfg wm now images s = Some (Ret widget, s') ->
  let out_name := fun ni : string * ref =>
    filename_with_suffix (fst ni) (suffix cfg) (PyStr.lower (out_fmt cfg)) in
  match images with
  | [] => widget = st_warning "No images to process."
  | [ni] =>
      exists data,
        widget = st_download_button ("Download " ++ out_name ni) data (out_name ni)
                   (image_mime (out_fmt cfg))
  | _ =>
      exists entries,
        List.map fst entries = List.map out_name images
        /\ widget
           = st_download_button
               ("Download " ++ "exports_" ++ strftime_Ymd_HMS now ++ ".zip")
               (zip_getvalue lib {| za_compression := ZIP_DEFLATED;
                                    za_entries := entries |})
               ("exports_" ++ strftime_Ymd_HMS now ++ ".zip") "application/zip"
  end.
Proof.
  intros Hrun out_name. unfold process_images in Hrun.
  destruct images as [|ni rest]; [injection Hrun as <- _; reflexivity|].
  rewrite bind_unfold in Hrun.
  destruct (process_all lib cfg wm (ni :: rest) [] s) as [[[results|e] s1]|] eqn:Hall;
    try discriminate.
  destruct (process_all_results _ _ _ _ _ _ _ _ Hall) as (entries & -> & Hnames).
  simpl app in Hrun. unfold lift in Hrun. injection Hrun as Hexp _.
  fold out_name in Hnames.
  destruct rest as [|ni2 rest].
  - destruct entries as [|[fname data] [|? ?]]; try discriminate.
    simpl in Hnames. injection Hnames as ->.
    simpl in Hexp. injection Hexp as <-. eauto.
  - exists entries. split; [exact Hnames|].
    unfold export in Hexp.
    assert (Hlen : length entries = S (S (length rest))).
    { rewrite <- (length_map fst entries), Hnames, length_map. reflexivity. }
    replace (length entries =? 1)%nat with false in Hexp
      by (symmetry; apply Nat.eqb_neq; lia).
    rewrite writestr_all_entries in Hexp. simpl in Hexp.
    injection Hexp as <-. reflexivity.
Qed.

Lemma batch_delivery_names_witness :
  exists entries,
    List.map fst entries = ["a_web.jpeg"; "c_web.jpeg"]
    /\ st_download_button "Download exports_20250309_140507.zip"
         [Byte.x4a; Byte.x01; Byte.x02; Byte.x03; Byte.x4a; Byte.x01; Byte.x02; Byte.x03]
         "exports_20250309_140507.zip" "application/zip"
       = st_download_button
           ("Download " ++ "exports_" ++ strftime_Ymd_HMS Toy.now ++ ".zip")
           (zip_getvalue Toy.lib {| za_compression := ZIP_DEFLATED;
                                    za_entries := entries |})
           ("exports_" ++ strftime_Ymd_HMS Toy.now ++ ".zip") "application/zip".
Proof.
  eapply (batch_delivery_names Toy.lib Toy.cfg None Toy.now
            [("dir/a.jpg", 1%positive); ("c.png", 3%positive)]
            _ (Toy.store3 (Toy.rgb 800 600) (Toy.rgb 1 600) (Toy.rgb 640 480))).
  vm_compute. reflexivity.
Defined.

(** ** Output names and the upload filter *)

Lemma string_app_assoc (a b c : string) : (a ++ b) ++ c = a ++ (b ++ c).
Proof.
  induction a as [|x a IH]; [reflexivity|].
  change (String x ((a ++ b) ++ c) = String x (a ++ (b ++ c))).
  rewrite IH. reflexivity.
Qed.

Lemma string_app_empty_r (a : string) : a ++ EmptyString = a.
Proof.
  induction a as [|x a IH]; [reflexivity|].
  change (String x (a ++ EmptyString) = String x a).
  rewrite IH. reflexivity.
Qed.

Lemma rev_acc_app (a acc : string) :
  PyStr.rev_acc a acc = PyStr.rev_acc a EmptyString ++ acc.
Proof.
  revert acc. induction a as [|c a IH]; intros acc; simpl; [reflexivity|].
  rewrite (IH (String c acc)), (IH (String c EmptyString)).
  rewrite string_app_assoc. reflexivity.
Qed.

Lemma pystr_rev_app (a b : string) : PyStr.rev (a ++ b) = PyStr.rev b ++ PyStr.rev a.
Proof.
  unfold PyStr.rev. induction a as [|c a IH]; simpl.
  - rewrite string_app_empty_r. reflexivity.
  - rewrite rev_acc_app, IH, (rev_acc_app a (String c EmptyString)).
    rewrite string_app_assoc. reflexivity.
Qed.

Lemma prefix_app (p q : string) : String.prefix p (p ++ q) = true.
Proof.
  induction p as [|c p IH]; simpl; [destruct q; reflexivity|].
  destruct (ascii_dec c c); [exact IH | contradiction].
Qed.

Lemma endswith_app (a b : string) : PyStr.endswith (a ++ b) b = true.
Proof. unfold PyStr.endswith. rewrite pystr_rev_app. apply prefix_app. Qed.

(** X18. The names given to JPEG and WEBP outputs end in .jpeg and .webp,
    whatever the input name and the suffix, and so pass the extension test
    of the archive reader: an exported archive can be uploaded again. *)
Theorem output_names_are_image_names (name suffix out_fmt : string) :
  out_fmt = "JPEG" \/ out_fmt = "WEBP" ->
  let out_name := filename_with_suffix name suffix (PyStr.lower out_fmt) in
  PyStr.endswith out_name ("." ++ PyStr.lower out_fmt) = true
  /\ is_image_entry (mkZipInfo false out_name) = true.
Proof.
  intros Hfmt out_name.
  assert (Hshape : exists base, out_name = base ++ "." ++ PyStr.lower out_fmt).
  { unfold out_name, filename_with_suffix.
    eexists (_ ++ suffix). rewrite string_app_assoc.
    destruct Hfmt as [-> | ->]; reflexivity. }
  destruct Hshape as [base Hshape]. split.
  - rewrite Hshape. apply endswith_app.
  - unfold is_image_entry. cbn [zi_is_dir zi_filename negb andb].
    rewrite Hshape. unfold PyStr.lower at 1. rewrite pystr_map_app.
    unfold PyStr.endswith_any, image_extensions.
    destruct Hfmt as [-> | ->]; cbn [existsb].
    + replace (PyStr.map PyStr.lower_ascii ("." ++ PyStr.lower "JPEG")) with ".jpeg"
        by reflexivity.
      rewrite (endswith_app _ ".jpeg"). apply orb_true_iff. right. reflexivity.
    + replace (PyStr.map PyStr.lower_ascii ("." ++ PyStr.lower "WEBP")) with ".webp"
        by reflexivity.
      rewrite (endswith_app _ ".webp").
      do 3 (apply orb_true_iff; right). reflexivity.
Qed.

Lemma output_names_are_image_names_witness :
  PyStr.endswith (filename_with_suffix "shoot/IMG_1.PNG" "_web" (PyStr.lower "JPEG"))
    ("." ++ PyStr.lower "JPEG") = true
  /\ is_image_entry
       (mkZipInfo false
          (filename_with_suffix "shoot/IMG_1.PNG" "_web" (PyStr.lower "JPEG"))) = true.
Proof. apply output_names_are_image_names. left. reflexivity. Defined.

(** ** Normaliser, presets, watermark upload *)



(** X20. Whatever the preset string, the default target long edge lies
    within the bounds 256..12000 of its input field; a preset that is none
    of the four named ones gives 2048. *)
Theorem default_long_in_bounds (preset : string) :
  256 <= default_long preset <= 12000
  /\ (preset <> "Instagram post 1080 long edge" ->
      preset <> "Instagram portrait 1350 long edge" ->
      preset <> "Instagram story 1920 long edge" ->
      default_long preset = 2048).
Proof.
  unfold default_long. split.
  - repeat case_bool_decide; lia.
  - intros H1 H2 H3.
    rewrite (bool_decide_eq_false_2 _ H1), (bool_decide_eq_false_2 _ H2),
      (bool_decide_eq_false_2 _ H3).
    case_bool_decide; reflexivity.
Qed.

Lemma default_long_in_bounds_witness : default_long "Custom" = 2048.
Proof. apply default_long_in_bounds; discriminate. Defined.

(** X21. Loading the watermark upload never raises: a file that does not
    open as an image results in no watermark, with the store untouched;
    otherwise the watermark is a new object.  Either way what it returns is
    fit to be passed to the batch. *)
Theorem load_watermark_never_raises (lib : Pillow) (wm_file : option bytes)
    (s : store) :
  exists wm_img s',
    load_watermark lib wm_file s = Some (Ret wm_img, s')
    /\ s ⊆ s'
    /\ allocated s' wm_img
    /\ (forall l, wm_img = Some l -> s !! l = None)
    /\ (wm_img = None -> s' = s).
Proof.
  unfold load_watermark. destruct wm_file as [f|].
  - unfold try_except. rewrite bind_unfold. unfold Image_open. rewrite lift_bind.
    destruct (pil_open lib f) as [im|e].
    + rewrite new_run. eexists _, _. split; [reflexivity|].
      split; [apply insert_subseteq, fresh_None|].
      split; [eexists; apply lookup_insert_eq|].
      split; [intros l [= <-]; apply fresh_None | discriminate].
    + exists None, s. split; [reflexivity|]. split; [reflexivity|].
      split; [exact I|]. split; [discriminate | reflexivity].
  - exists None, s. split; [reflexivity|]. split; [reflexivity|].
    split; [exact I|]. split; [discriminate | reflexivity].
Qed.

(** ** More on the encoder and on archives *)

(** X22. WEBP without trouble and with double trouble: when the save with
    metadata succeeds its bytes are returned and there is no second save;
    when it raises [TypeError] and the save without metadata raises as
    well, that second exception is what the caller gets. *)
Theorem webp_first_and_second_save (lib : Pillow) (s : store) (img : ref)
    (im : Image) (fmt : string) (q : Z) (p o k : bool) :
  s !! img = Some im ->
  PyStr.upper fmt = "WEBP" ->
  let first := pil_save lib im "WEBP" (webp_params q (exif_bytes_of im k)) in
  let retry := pil_save lib (snd first) "WEBP" (webp_retry_params q) in
  (forall b, fst first = Ret b ->
             exists s', save_image_bytes lib img fmt q p o k s = Some (Ret b, s'))
  /\ (forall e, fst first = Raise TypeError -> fst retry = Raise e ->
                exists s', save_image_bytes lib img fmt q p o k s = Some (Raise e, s')).
Proof.
  intros Him Hfmt first retry.
  pose proof (save_image_bytes_webp lib s img im fmt q p o k Him Hfmt) as Hrun.
  cbv zeta in Hrun. fold first in Hrun. fold retry in Hrun. split.
  - intros b Hb. rewrite Hb in Hrun. eauto.
  - intros e Hfirst Hretry. rewrite Hfirst in Hrun. simpl in Hrun.
    rewrite Hretry in Hrun. eauto.
Qed.

Lemma webp_first_and_second_save_witness :
  exists s',
    save_image_bytes Toy.lib 1%positive "webp" 85 true true true
      (Toy.store1 (Toy.rgb 4 3))
    = Some (Ret [Byte.x57; Byte.x01; Byte.x02; Byte.x03], s').
Proof.
  apply (proj1 (webp_first_and_second_save Toy.lib (Toy.store1 (Toy.rgb 4 3))
                  1%positive (Toy.rgb 4 3) "webp" 85 true true true eq_refl eq_refl)).
  reflexivity.
Defined.

Lemma read_zip_entries_settles (lib : Pillow) (data : bytes) (infos : list ZipInfo)
    (images : list (string * ref)) (s : store) :
  Forall (fun info => is_image_entry info = true ->
                      exists f, zip_open lib data info = Ret f) infos ->
  exists added s',
    read_zip_entries lib data infos images s = Some (Ret (images ++ added)%list, s')
    /\ kept s s'
    /\ List.map fst added
       `sublist_of` List.map zi_filename (List.filter is_image_entry infos)
    /\ Forall (fun nl => s !! snd nl = None /\ is_Some (s' !! snd nl)) added.
Proof.
  intros Hopen. revert images s.
  induction Hopen as [|info rest Hinfo _ IH]; intros images s.
  - exists [], s. rewrite app_nil_r. split; [reflexivity|].
    split; [apply kept_refl|]. split; constructor.
  - cbn [read_zip_entries List.filter]. unfold is_image_entry at 1.
    unfold is_image_entry at 1 in Hinfo.
    destruct (zi_is_dir info) eqn:Ed; cbn [negb andb] in *; [apply IH|].
    destruct (PyStr.endswith_any (PyStr.lower (zi_filename info)) image_extensions)
      eqn:Ee; cbn [negb] in *; [|apply IH].
    destruct (Hinfo eq_refl) as [f Hf].
    rewrite lift_bind, Hf.
    assert (Hstep : exists images' s1,
              try_except
                (raw ← lift f;
                 im ← Image_open lib raw;
                 im ← ImageOps_exif_transpose lib im;
                 ret (images ++ [(zi_filename info, im)])%list)
                (ret images) s = Some (Ret images', s1)
              /\ kept s s1
              /\ (images' = images
                  \/ exists l, images' = (images ++ [(zi_filename info, l)])%list
                               /\ s !! l = None /\ is_Some (s1 !! l))).
    { destruct f as [raw|e].
      - destruct (read_single_upload lib (zi_filename info) raw images s)
          as (images' & s1 & Hrun & Hk & Hc).
        exists images', s1. split; [|split; assumption].
        unfold try_except in *. rewrite lift_bind. exact Hrun.
      - exists images, s. split; [|split; [apply kept_refl | left; reflexivity]].
        unfold try_except. rewrite lift_bind. reflexivity. }
    destruct Hstep as (images' & s1 & Hrun & Hkept & Hcase).
    rewrite (bind_ret _ _ _ _ _ Hrun).
    destruct (IH images' s1) as (added & s' & Hrest & Hkept' & Hsub & Hall).
    rewrite Hrest.
    assert (Hfresh : Forall (fun nl => s !! snd nl = None /\ is_Some (s' !! snd nl)) added).
    { eapply Forall_impl; [exact Hall|]. intros [n l] [Hn Hl]. split; [|exact Hl].
      simpl in *. destruct (s !! l) as [x|] eqn:E; [|reflexivity].
      rewrite (Hkept _ _ E) in Hn. discriminate. }
    destruct Hcase as [-> | (l & -> & Hl & Halloc)].
    + exists added, s'. split; [reflexivity|].
      split; [eapply kept_trans; eassumption|]. split; [|exact Hfresh].
      cbn [List.map]. apply sublist_cons, Hsub.
    + exists ((zi_filename info, l) :: added), s'.
      rewrite <- app_assoc. split; [reflexivity|].
      split; [eapply kept_trans; eassumption|]. split.
      * cbn [List.map fst]. apply sublist_skip, Hsub.
      * constructor; [|exact Hfresh]. simpl. split; [exact Hl|].
        destruct Halloc as [x Hx]. rewrite (Hkept' _ _ Hx). eauto.
Qed.

(** X23. An archive whose image entries can all be opened never makes the
    reading raise, whatever reading or decoding its members does: the
    images it yields are new objects named by their full entry names, in
    archive order, and only image entries contribute. *)
Theorem archive_members_never_abort (lib : Pillow) (uf : UploadedFile)
    (infos : list ZipInfo) (s : store) :
  is_zip_upload uf = true ->
  zip_infolist lib (uf_data uf) = Ret infos ->
  Forall (fun info => is_image_entry info = true ->
                      exists f, zip_open lib (uf_data uf) info = Ret f) infos ->
  exists images s',
    read_uploaded_images lib [uf] s = Some (Ret images, s')
    /\ s ⊆ s'
    /\ List.map fst images
       `sublist_of` List.map zi_filename (List.filter is_image_entry infos)
    /\ Forall (fun nl => s !! snd nl = None /\ is_Some (s' !! snd nl)) images.
Proof.
  intros Hzip Hinfos Hopen.
  destruct (read_zip_entries_settles lib (uf_data uf) infos [] s Hopen)
    as (added & s' & Hrun & Hkept & Hsub & Hall).
  exists added, s'. split.
  - unfold read_uploaded_images. cbn [read_uploads].
    unfold is_zip_upload, upload_name in Hzip. rewrite Hzip.
    rewrite bind_unfold, lift_bind, Hinfos, Hrun. reflexivity.
  - split; [apply kept_subseteq, Hkept|]. split; assumption.
Qed.

Lemma archive_members_never_abort_witness :
  exists images s',
    read_uploaded_images (Toy.with_archive Toy.sample_infos Toy.sample_members)
      [Toy.zip_upload] ∅ = Some (Ret images, s')
    /\ ∅ ⊆ s'
    /\ List.map fst images
       `sublist_of` List.map zi_filename (List.filter is_image_entry Toy.sample_infos)
    /\ Forall (fun nl => (∅ : store) !! snd nl = None /\ is_Some (s' !! snd nl)) images.
Proof.
  apply (archive_members_never_abort
           (Toy.with_archive Toy.sample_infos Toy.sample_members) Toy.zip_upload
           Toy.sample_infos ∅).
  - reflexivity.
  - reflexivity.
  - repeat constructor; intros _; eexists; reflexivity.
Defined.

Example archive_example :
  fst <$> read_uploaded_images (Toy.with_archive Toy.sample_infos Toy.sample_members)
            [Toy.zip_upload] ∅
  = Some (Ret [("a.jpg", 2%positive)]).
Proof. vm_compute. reflexivity. Qed.
